(** * mcpdbg: the relay between the MCP server and the VS Code extension

  A shallow embedding of the relay protocol of the repository:
  - [protocol.ts]: the zod schemas of the three message kinds;
  - the VS Code extension (listening role): the WebSocket message
    handler and the command dispatcher;
  - [mcp-server/src/index.ts] (connecting role): the connection loop, the
    request correlator and the session state cache.

  JavaScript values are modelled as a datatype, numbers as IEEE 754
  doubles through the Standard Library's [spec_float], a text frame by
  what [JSON.parse] makes of it, effects by a trace, and timers by a
  logical clock counted in milliseconds. Diagnostic output
  ([console.error], the output channel) is left out of the model. *)

From Stdlib Require Import ZArith Floats.SpecFloat.
From stdpp Require Import gmap strings list.

Set Warnings "-register-all,-abstract-large-number".

(** ** JavaScript values *)

Module JS.

(** A JavaScript number is a double. *)
Abbreviation number := spec_float.

Definition of_Z (z : Z) : number :=
  match z with
  | Z0 => S754_zero false
  | Zpos p => S754_finite false p 0
  | Zneg p => S754_finite true p 0
  end.

#[global] Instance number_eq_dec : EqDecision number.
Proof. solve_decision. Defined.

(** [Number.isNaN]. *)
Definition isNaN (n : number) : bool :=
  match n with S754_nan => true | _ => false end.

(** [n === 0]: both zeros compare equal to the literal [0]. *)
Definition is_zero (n : number) : bool :=
  match n with S754_zero _ => true | _ => false end.

Inductive jsvalue :=
| JUndefined
| JNull
| JBool (b : bool)
| JNumber (n : number)
| JString (s : string)
| JArray (items : list jsvalue)
| JObject (props : list (string * jsvalue)).

(** [o[key]] on the own properties of an object literal or of a parsed
    JSON object: the first binding of the key, [undefined] when there is
    none. *)
Fixpoint prop (key : string) (props : list (string * jsvalue)) : jsvalue :=
  match props with
  | [] => JUndefined
  | (k, v) :: rest => if decide (k = key) then v else prop key rest
  end.

(** [{ ...o, key: v }]: the binding of [key] is replaced in place when the
    spread object has one, and added last otherwise. *)
Fixpoint spread_set (key : string) (v : jsvalue)
    (props : list (string * jsvalue)) : list (string * jsvalue) :=
  match props with
  | [] => [(key, v)]
  | (k, w) :: rest =>
      if decide (k = key) then (k, v) :: rest
      else (k, w) :: spread_set key v rest
  end.

(** What a thrown value is to the handlers of this program: an instance
    of [Error] with its message, or anything else. *)
Inductive thrown :=
| ErrorObject (message : string)
| Thrown (v : jsvalue).

(** [error instanceof Error ? error.message : fallback] *)
Definition message_or (fallback : string) (e : thrown) : string :=
  match e with
  | ErrorObject m => m
  | Thrown _ => fallback
  end.

(** [v.key] as an expression: reading a property of [undefined] or [null]
    throws a [TypeError] (the message is V8's); the primitives and arrays
    have none of the properties this program reads. *)
Definition get (v : jsvalue) (key : string) : thrown + jsvalue :=
  match v with
  | JUndefined =>
      inl (ErrorObject
        ("Cannot read properties of undefined (reading '" +:+ key +:+ "')"))
  | JNull =>
      inl (ErrorObject
        ("Cannot read properties of null (reading '" +:+ key +:+ "')"))
  | JObject props => inr (prop key props)
  | _ => inr JUndefined
  end.

(** *** JSON text

    A number is written by [JSON.stringify] as its shortest decimal
    expansion that reads back as the same double when it is finite (the
    sign of zero is not written), and as [null] otherwise. *)
Definition number_wire (n : number) : jsvalue :=
  match n with
  | S754_zero _ => JNumber (S754_zero false)
  | S754_finite _ _ _ => JNumber n
  | S754_infinity _ | S754_nan => JNull
  end.

(** [JSON.parse(JSON.stringify(v))]: a property whose value is
    [undefined] is not written, an [undefined] array element is written
    as [null]. *)
Fixpoint wire (v : jsvalue) : jsvalue :=
  match v with
  | JUndefined => JUndefined
  | JNull => JNull
  | JBool b => JBool b
  | JNumber n => number_wire n
  | JString s => JString s
  | JArray items =>
      JArray (map (fun x => match x with
                            | JUndefined => JNull
                            | _ => wire x
                            end) items)
  | JObject props =>
      JObject (omap (fun kv => match snd kv with
                               | JUndefined => None
                               | _ => Some (fst kv, wire (snd kv))
                               end) props)
  end.

(** An array element on the wire. *)
Definition wire_item (x : jsvalue) : jsvalue :=
  match x with JUndefined => JNull | _ => wire x end.

(** A text frame, seen through [JSON.parse]: text that is not JSON, with
    the message of the [SyntaxError] it raises, or the value the text
    parses to. *)
Inductive frame :=
| Garbage (syntax_error : string)
| Doc (v : jsvalue).

Definition JSON_stringify (v : jsvalue) : frame := Doc (wire v).

(** [JSON.parse] throws a [SyntaxError] on text that is not JSON. *)
Definition JSON_parse (data : frame) : thrown + jsvalue :=
  match data with
  | Garbage syntax_error => inl (ErrorObject syntax_error)
  | Doc v => inr v
  end.

(** The numbers JSON text carries unchanged. *)
Definition json_exact (n : number) : bool :=
  match n with
  | S754_zero false | S754_finite _ _ _ => true
  | _ => false
  end.

(** [v[key]] where [v] is known to be an object or a primitive without
    that property. *)
Definition own_prop (key : string) (v : jsvalue) : jsvalue :=
  match v with
  | JObject props => prop key props
  | _ => JUndefined
  end.

(** A string, a number, a boolean or [null]. *)
Definition scalar (v : jsvalue) : bool :=
  match v with
  | JNull | JBool _ | JNumber _ | JString _ => true
  | JUndefined | JArray _ | JObject _ => false
  end.

(** [ToBoolean]: what a value counts as in a condition. *)
Definition truthy (v : jsvalue) : bool :=
  match v with
  | JUndefined | JNull => false
  | JBool b => b
  | JNumber n => negb (is_zero n || isNaN n)
  | JString s => match s with EmptyString => false | String _ _ => true end
  | JArray _ | JObject _ => true
  end.

(** [a || b] *)
Definition or_else (a b : jsvalue) : jsvalue := if truthy a then a else b.

(** [v === "lit"] *)
Definition is_string (lit : string) (v : jsvalue) : bool :=
  match v with
  | JString s => bool_decide (s = lit)
  | _ => false
  end.

(** [s.includes(sub)] *)
Fixpoint includes (sub s : string) : bool :=
  String.prefix sub s
  || match s with
     | EmptyString => false
     | String _ rest => includes sub rest
     end.

End JS.
Import JS.

(** ** The message schemas ([protocol.ts]) *)

Module Protocol.

(** *** The message types ([z.infer] of the schemas)

    The literal fields [type], [command] and [event] are the constructors;
    an optional field is an [option]. *)

Inductive Request :=
| ExecuteLldbCommandRequest (lldb_command : string) (id : string)
    (frameId : option number)
| GetStackTraceRequest (threadId : number) (id : string)
| GetVariablesRequest (variablesReference : number) (id : string).

Record Source := { source_name : option string; source_path : option string }.

Record StackFrame := {
  frame_id : number;
  frame_name : string;
  frame_source : option Source;
  frame_line : number;
  frame_column : number
}.

Record VariableEntry := {
  variable_name : string;
  variable_value : string;
  variable_type : option string;
  variable_variablesReference : number
}.

Inductive Response :=
| ExecuteLldbCommandResponse (success : bool) (result : option string)
    (error : option string) (id : string)
| GetStackTraceResponse (success : bool)
    (stackFrames : option (list StackFrame)) (error : option string)
    (id : string)
| GetVariablesResponse (success : bool)
    (variables : option (list VariableEntry)) (error : option string)
    (id : string).

Inductive Event :=
| DebuggerStoppedEvent (reason : string) (threadId : number)
    (description : option string) (allThreadsStopped : option bool)
| DebuggerContinuedEvent (threadId : number)
    (allThreadsContinued : option bool).

Inductive Message :=
| MRequest (request : Request)
| MResponse (response : Response)
| MEvent (event : Event).

Definition request_id (r : Request) : string :=
  match r with
  | ExecuteLldbCommandRequest _ id _ => id
  | GetStackTraceRequest _ id => id
  | GetVariablesRequest _ id => id
  end.

Definition request_command (r : Request) : string :=
  match r with
  | ExecuteLldbCommandRequest _ _ _ => "executeLldbCommand"
  | GetStackTraceRequest _ _ => "getStackTrace"
  | GetVariablesRequest _ _ => "getVariables"
  end.

Definition response_id (r : Response) : string :=
  match r with
  | ExecuteLldbCommandResponse _ _ _ id => id
  | GetStackTraceResponse _ _ _ id => id
  | GetVariablesResponse _ _ _ id => id
  end.

Definition response_success (r : Response) : bool :=
  match r with
  | ExecuteLldbCommandResponse success _ _ _ => success
  | GetStackTraceResponse success _ _ _ => success
  | GetVariablesResponse success _ _ _ => success
  end.

Definition response_error (r : Response) : option string :=
  match r with
  | ExecuteLldbCommandResponse _ _ error _ => error
  | GetStackTraceResponse _ _ error _ => error
  | GetVariablesResponse _ _ error _ => error
  end.

(** *** The zod combinators the schemas are built from

    A schema maps a value to the parsed data, [None] when [safeParse]
    reports failure. *)

Definition schema (A : Type) : Type := jsvalue -> option A.

Definition z_string : schema string :=
  fun v => match v with JString s => Some s | _ => None end.

(** [z.number()] of zod 3 accepts every number but [NaN]. *)
Definition z_number : schema number :=
  fun v => match v with
           | JNumber n => if isNaN n then None else Some n
           | _ => None
           end.

Definition z_boolean : schema bool :=
  fun v => match v with JBool b => Some b | _ => None end.

Definition z_literal (lit : string) : schema unit :=
  fun v => match v with
           | JString s => if decide (s = lit) then Some tt else None
           | _ => None
           end.

(** [.optional()]: [undefined] (a missing key reads as [undefined]) parses
    to an absent field; anything else goes to the inner schema. *)
Definition z_optional {A} (inner : schema A) : schema (option A) :=
  fun v => match v with
           | JUndefined => Some None
           | _ => Some <$> inner v
           end.

Definition z_array {A} (inner : schema A) : schema (list A) :=
  fun v => match v with
           | JArray items => mapM inner items
           | _ => None
           end.

(** [z.object({...})]: the value is an object; each key of the shape is
    read and parsed; keys outside the shape are dropped. *)
Definition z_object {A} (shape : list (string * jsvalue) -> option A)
  : schema A :=
  fun v => match v with JObject props => shape props | _ => None end.

(** [z.union([...])]: the options are tried in order, the first success is
    the result. *)
Fixpoint z_union {A} (options : list (schema A)) : schema A :=
  fun v => match options with
           | [] => None
           | s :: rest =>
               match s v with
               | Some a => Some a
               | None => z_union rest v
               end
           end.

Notation "o .[ k ]" := (prop k o) (at level 1, left associativity,
  format "o .[ k ]").

(** *** Request schemas (MCP server -> extension) *)

Definition executeLldbCommandRequestSchema : schema Request :=
  z_object (fun o =>
    _ ← z_literal "request" o.["type"];
    _ ← z_literal "executeLldbCommand" o.["command"];
    lldb_command ← z_string o.["lldb_command"];
    id ← z_string o.["id"];
    frameId ← z_optional z_number o.["frameId"];
    Some (ExecuteLldbCommandRequest lldb_command id frameId)).

Definition getStackTraceRequestSchema : schema Request :=
  z_object (fun o =>
    _ ← z_literal "request" o.["type"];
    _ ← z_literal "getStackTrace" o.["command"];
    threadId ← z_number o.["threadId"];
    id ← z_string o.["id"];
    Some (GetStackTraceRequest threadId id)).

Definition getVariablesRequestSchema : schema Request :=
  z_object (fun o =>
    _ ← z_literal "request" o.["type"];
    _ ← z_literal "getVariables" o.["command"];
    variablesReference ← z_number o.["variablesReference"];
    id ← z_string o.["id"];
    Some (GetVariablesRequest variablesReference id)).

(** *** Response schemas (extension -> MCP server) *)

Definition executeLldbCommandResponseSchema : schema Response :=
  z_object (fun o =>
    _ ← z_literal "response" o.["type"];
    _ ← z_literal "executeLldbCommand" o.["command"];
    success ← z_boolean o.["success"];
    result ← z_optional z_string o.["result"];
    error ← z_optional z_string o.["error"];
    id ← z_string o.["id"];
    Some (ExecuteLldbCommandResponse success result error id)).

Definition sourceSchema : schema Source :=
  z_object (fun o =>
    name ← z_optional z_string o.["name"];
    path ← z_optional z_string o.["path"];
    Some {| source_name := name; source_path := path |}).

Definition stackFrameSchema : schema StackFrame :=
  z_object (fun o =>
    id ← z_number o.["id"];
    name ← z_string o.["name"];
    source ← z_optional sourceSchema o.["source"];
    line ← z_number o.["line"];
    column ← z_number o.["column"];
    Some {| frame_id := id; frame_name := name; frame_source := source;
            frame_line := line; frame_column := column |}).

Definition getStackTraceResponseSchema : schema Response :=
  z_object (fun o =>
    _ ← z_literal "response" o.["type"];
    _ ← z_literal "getStackTrace" o.["command"];
    success ← z_boolean o.["success"];
    stackFrames ← z_optional (z_array stackFrameSchema) o.["stackFrames"];
    error ← z_optional z_string o.["error"];
    id ← z_string o.["id"];
    Some (GetStackTraceResponse success stackFrames error id)).

Definition variableSchema : schema VariableEntry :=
  z_object (fun o =>
    name ← z_string o.["name"];
    value ← z_string o.["value"];
    type ← z_optional z_string o.["type"];
    variablesReference ← z_number o.["variablesReference"];
    Some {| variable_name := name; variable_value := value;
            variable_type := type;
            variable_variablesReference := variablesReference |}).

Definition getVariablesResponseSchema : schema Response :=
  z_object (fun o =>
    _ ← z_literal "response" o.["type"];
    _ ← z_literal "getVariables" o.["command"];
    success ← z_boolean o.["success"];
    variables ← z_optional (z_array variableSchema) o.["variables"];
    error ← z_optional z_string o.["error"];
    id ← z_string o.["id"];
    Some (GetVariablesResponse success variables error id)).

(** *** Event schemas (extension -> MCP server) *)

Definition debuggerStoppedEventSchema : schema Event :=
  z_object (fun o =>
    _ ← z_literal "event" o.["type"];
    _ ← z_literal "debuggerStopped" o.["event"];
    reason ← z_string o.["reason"];
    threadId ← z_number o.["threadId"];
    description ← z_optional z_string o.["description"];
    allThreadsStopped ← z_optional z_boolean o.["allThreadsStopped"];
    Some (DebuggerStoppedEvent reason threadId description allThreadsStopped)).

Definition debuggerContinuedEventSchema : schema Event :=
  z_object (fun o =>
    _ ← z_literal "event" o.["type"];
    _ ← z_literal "debuggerContinued" o.["event"];
    threadId ← z_number o.["threadId"];
    allThreadsContinued ← z_optional z_boolean o.["allThreadsContinued"];
    Some (DebuggerContinuedEvent threadId allThreadsContinued)).

(** *** Unions *)

Definition requestSchema : schema Request :=
  z_union [executeLldbCommandRequestSchema; getStackTraceRequestSchema;
           getVariablesRequestSchema].

Definition responseSchema : schema Response :=
  z_union [executeLldbCommandResponseSchema; getStackTraceResponseSchema;
           getVariablesResponseSchema].

Definition eventSchema : schema Event :=
  z_union [debuggerStoppedEventSchema; debuggerContinuedEventSchema].

Definition messageSchema : schema Message :=
  z_union [fun v => MRequest <$> requestSchema v;
           fun v => MResponse <$> responseSchema v;
           fun v => MEvent <$> eventSchema v].

(** *** The object a typed message is

    The keys are those of the schema, in its order; an absent optional field
    is a missing key. *)

Definition field {A} (key : string) (to : A -> jsvalue) (x : option A)
  : list (string * jsvalue) :=
  match x with
  | Some a => [(key, to a)]
  | None => []
  end.

Definition Source_object (s : Source) : jsvalue :=
  JObject (field "name" JString (source_name s)
           ++ field "path" JString (source_path s)).

Definition StackFrame_object (f : StackFrame) : jsvalue :=
  JObject ([("id", JNumber (frame_id f)); ("name", JString (frame_name f))]
           ++ field "source" Source_object (frame_source f)
           ++ [("line", JNumber (frame_line f));
               ("column", JNumber (frame_column f))]).

Definition Variable_object (x : VariableEntry) : jsvalue :=
  JObject ([("name", JString (variable_name x));
            ("value", JString (variable_value x))]
           ++ field "type" JString (variable_type x)
           ++ [("variablesReference",
                JNumber (variable_variablesReference x))]).

Definition Request_object (r : Request) : jsvalue :=
  match r with
  | ExecuteLldbCommandRequest lldb_command id frameId =>
      JObject ([("type", JString "request");
                ("command", JString "executeLldbCommand");
                ("lldb_command", JString lldb_command);
                ("id", JString id)]
               ++ field "frameId" JNumber frameId)
  | GetStackTraceRequest threadId id =>
      JObject [("type", JString "request");
               ("command", JString "getStackTrace");
               ("threadId", JNumber threadId);
               ("id", JString id)]
  | GetVariablesRequest variablesReference id =>
      JObject [("type", JString "request");
               ("command", JString "getVariables");
               ("variablesReference", JNumber variablesReference);
               ("id", JString id)]
  end.

Definition Response_object (r : Response) : jsvalue :=
  match r with
  | ExecuteLldbCommandResponse success result error id =>
      JObject ([("type", JString "response");
                ("command", JString "executeLldbCommand");
                ("success", JBool success)]
               ++ field "result" JString result
               ++ field "error" JString error
               ++ [("id", JString id)])
  | GetStackTraceResponse success stackFrames error id =>
      JObject ([("type", JString "response");
                ("command", JString "getStackTrace");
                ("success", JBool success)]
               ++ field "stackFrames"
                    (fun l => JArray (map StackFrame_object l)) stackFrames
               ++ field "error" JString error
               ++ [("id", JString id)])
  | GetVariablesResponse success variables error id =>
      JObject ([("type", JString "response");
                ("command", JString "getVariables");
                ("success", JBool success)]
               ++ field "variables"
                    (fun l => JArray (map Variable_object l)) variables
               ++ field "error" JString error
               ++ [("id", JString id)])
  end.

Definition Event_object (e : Event) : jsvalue :=
  match e with
  | DebuggerStoppedEvent reason threadId description allThreadsStopped =>
      JObject ([("type", JString "event");
                ("event", JString "debuggerStopped");
                ("reason", JString reason);
                ("threadId", JNumber threadId)]
               ++ field "description" JString description
               ++ field "allThreadsStopped" JBool allThreadsStopped)
  | DebuggerContinuedEvent threadId allThreadsContinued =>
      JObject ([("type", JString "event");
                ("event", JString "debuggerContinued");
                ("threadId", JNumber threadId)]
               ++ field "allThreadsContinued" JBool allThreadsContinued)
  end.

Definition Message_object (m : Message) : jsvalue :=
  match m with
  | MRequest r => Request_object r
  | MResponse r => Response_object r
  | MEvent e => Event_object e
  end.

(** *** The numeric fields of a message *)

Definition StackFrame_numbers (f : StackFrame) : list number :=
  [frame_id f; frame_line f; frame_column f].

Definition Message_numbers (m : Message) : list number :=
  match m with
  | MRequest (ExecuteLldbCommandRequest _ _ frameId) =>
      match frameId with Some n => [n] | None => [] end
  | MRequest (GetStackTraceRequest threadId _) => [threadId]
  | MRequest (GetVariablesRequest variablesReference _) =>
      [variablesReference]
  | MResponse (ExecuteLldbCommandResponse _ _ _ _) => []
  | MResponse (GetStackTraceResponse _ stackFrames _ _) =>
      match stackFrames with
      | Some l => concat (map StackFrame_numbers l)
      | None => []
      end
  | MResponse (GetVariablesResponse _ variables _ _) =>
      match variables with
      | Some l => map variable_variablesReference l
      | None => []
      end
  | MEvent (DebuggerStoppedEvent _ threadId _ _) => [threadId]
  | MEvent (DebuggerContinuedEvent threadId _) => [threadId]
  end.

(** The keys the schemas read. *)
Definition message_keys : list string :=
  ["type"; "command"; "event"; "id"; "lldb_command"; "frameId"; "threadId";
   "variablesReference"; "success"; "result"; "error"; "stackFrames";
   "variables"; "reason"; "description"; "allThreadsStopped";
   "allThreadsContinued"].

Definition stackFrame_keys : list string :=
  ["id"; "name"; "source"; "line"; "column"].

Definition variable_keys : list string :=
  ["name"; "value"; "type"; "variablesReference"].

(** The message a frame decodes to: [JSON.parse], then
    [messageSchema.safeParse]. A frame that decodes to nothing is
    malformed. *)
Definition decode (data : frame) : option Message :=
  match JSON_parse data with
  | inl _ => None
  | inr message => messageSchema message
  end.

End Protocol.
Import Protocol.

(** ** The VS Code extension: the listening role and the dispatcher *)

Module Extension.

(** What a handler does to the outside: a request to the debug session, a
    frame sent to a peer. *)
Inductive effect :=
| CustomRequest (command : string) (args : jsvalue)
| WsSend (ws : nat) (data : frame).

(** A computation: the trace of its effects, and how it ends, with a thrown
    value or with a result. *)
Definition M (A : Type) : Type := list effect * (thrown + A).

Definition ret {A} (a : A) : M A := ([], inr a).

Definition lift {A} (r : thrown + A) : M A := ([], r).

Definition bind {A B} (m : M A) (k : A -> M B) : M B :=
  match m with
  | (t, inl e) => (t, inl e)
  | (t, inr a) => (t ++ fst (k a), snd (k a))
  end.

(** [try { body } catch (error) { handler }] *)
Definition try_catch {A} (body : M A) (handler : thrown -> M A) : M A :=
  match body with
  | (t, inl e) => (t ++ fst (handler e), snd (handler e))
  | (t, inr a) => (t, inr a)
  end.

Notation "'do' x <- m ; k" := (bind m (fun x => k))
  (at level 10, x name, m at level 100, k at level 200,
   format "'[v' 'do'  x  <-  m ; '/' k ']'").

(** [vscode.DebugSession]: its [type], and how it answers a custom request
    (the awaited promise is fulfilled with a value or rejected). *)
Record DebugSession := {
  session_type : string;
  session_answer : string -> jsvalue -> thrown + jsvalue
}.

(** [await session.customRequest(command, args)] *)
Definition customRequest (session : DebugSession) (command : string)
    (args : jsvalue) : M jsvalue :=
  ([CustomRequest command args], session_answer session command args).

(** [ws.send(data)] of the [ws] package on an accepted socket: the frame is
    written when the socket is open and dropped otherwise; the call
    returns. *)
Definition ws_send (ws : nat) (data : frame) : M unit :=
  ([WsSend ws data], inr tt).

(** The guard [!session || session.type !== "lldb"], turned around: the
    session the handlers go on with. *)
Definition lldb_session (active : option DebugSession) : option DebugSession :=
  match active with
  | Some session =>
      if decide (session_type session = "lldb") then Some session else None
  | None => None
  end.

Definition failure (command error id : string) : jsvalue :=
  JObject [("type", JString "response");
           ("command", JString command);
           ("success", JBool false);
           ("error", JString error);
           ("id", JString id)].

Definition handleExecuteLldbCommand (active : option DebugSession) (ws : nat)
    (lldb_command id : string) : M unit :=
  match lldb_session active with
  | None =>
      ws_send ws (JSON_stringify
        (failure "executeLldbCommand" "No active LLDB debug session" id))
  | Some session =>
      try_catch
        (do result <- customRequest session "evaluate"
                     (JObject [("expression", JString lldb_command);
                               ("context", JString "_command")]);
         do text <- lift (get result "result");
         ws_send ws (JSON_stringify
           (JObject [("type", JString "response");
                     ("command", JString "executeLldbCommand");
                     ("success", JBool true);
                     ("result", text);
                     ("id", JString id)])))
        (fun error =>
           ws_send ws (JSON_stringify
             (failure "executeLldbCommand"
                (message_or "Command execution failed" error) id)))
  end.

Definition handleGetStackTrace (active : option DebugSession) (ws : nat)
    (threadId : number) (id : string) : M unit :=
  match lldb_session active with
  | None =>
      ws_send ws (JSON_stringify
        (failure "getStackTrace" "No active LLDB debug session" id))
  | Some session =>
      try_catch
        (do result <- customRequest session "stackTrace"
                     (JObject [("threadId", JNumber threadId);
                               ("startFrame", JNumber (of_Z 0));
                               ("levels", JNumber (of_Z 100))]);
         do body <- lift (get result "body");
         do stackFrames <- lift (get body "stackFrames");
         ws_send ws (JSON_stringify
           (JObject [("type", JString "response");
                     ("command", JString "getStackTrace");
                     ("success", JBool true);
                     ("stackFrames", stackFrames);
                     ("id", JString id)])))
        (fun error =>
           ws_send ws (JSON_stringify
             (failure "getStackTrace"
                (message_or "Failed to get stack trace" error) id)))
  end.

Definition handleGetVariables (active : option DebugSession) (ws : nat)
    (variablesReference : number) (id : string) : M unit :=
  match lldb_session active with
  | None =>
      ws_send ws (JSON_stringify
        (failure "getVariables" "No active LLDB debug session" id))
  | Some session =>
      try_catch
        (let variablesRef := variablesReference in
         if is_zero variablesRef then
           ws_send ws (JSON_stringify
             (failure "getVariables"
                "Please provide a valid variablesReference from a stack frame"
                id))
         else
           do result <- customRequest session "variables"
                       (JObject [("variablesReference",
                                  JNumber variablesRef)]);
           do body <- lift (get result "body");
           do variables <- lift (get body "variables");
           ws_send ws (JSON_stringify
             (JObject [("type", JString "response");
                       ("command", JString "getVariables");
                       ("success", JBool true);
                       ("variables", variables);
                       ("id", JString id)])))
        (fun error =>
           ws_send ws (JSON_stringify
             (failure "getVariables"
                (message_or "Failed to get variables" error) id)))
  end.

Definition handleRequest (active : option DebugSession) (ws : nat)
    (request : Request) : M unit :=
  match request with
  | ExecuteLldbCommandRequest lldb_command id _ =>
      handleExecuteLldbCommand active ws lldb_command id
  | GetStackTraceRequest threadId id =>
      handleGetStackTrace active ws threadId id
  | GetVariablesRequest variablesReference id =>
      handleGetVariables active ws variablesReference id
  end.

Section Server.

(** [parsed.error.format()]: zod's report on a value the schema rejects. *)
Variable format : jsvalue -> jsvalue.

(** The ["message"] handler of a connection. *)
Definition on_message (active : option DebugSession) (ws : nat)
    (data : frame) : M unit :=
  try_catch
    (do message <- lift (JSON_parse data);
     match messageSchema message with
     | None =>
         ws_send ws (JSON_stringify
           (JObject [("type", JString "error");
                     ("error", JString "Invalid message format");
                     ("details", format message)]))
     | Some (MRequest request) => handleRequest active ws request
     | Some _ => ret tt
     end)
    (fun error =>
       ws_send ws (JSON_stringify
         (JObject [("type", JString "error");
                   ("error", JString "Failed to process message");
                   ("details", JString (message_or "Unknown error" error))]))).

(** What happens on the server socket and on its connections. The active
    debug session is the one [vscode.debug.activeDebugSession] holds when a
    message is handled. *)
Inductive ws_event :=
| Connection (ws : nat)
| MessageFrom (ws : nat) (data : frame) (active : option DebugSession)
| Close (ws : nat)
| SocketError (ws : nat).

(** One event against the set [clients]: the new set, and what the handler
    did. *)
Definition on_event (clients : gset nat) (ev : ws_event)
  : gset nat * M unit :=
  match ev with
  | Connection ws => ({[ws]} ∪ clients, ret tt)
  | MessageFrom ws data active => (clients, on_message active ws data)
  | Close ws => (clients ∖ {[ws]}, ret tt)
  | SocketError ws => (clients ∖ {[ws]}, ret tt)
  end.

(** The server over a sequence of events: the final [clients], the effects
    in order, and the values thrown out of a handler. *)
Fixpoint serve (clients : gset nat) (evs : list ws_event)
  : gset nat * list effect * list thrown :=
  match evs with
  | [] => (clients, [], [])
  | ev :: rest =>
      let '(clients', (t, r)) := on_event clients ev in
      let '(final, t', uncaught) := serve clients' rest in
      (final, t ++ t',
       match r with inl e => e :: uncaught | inr _ => uncaught end)
  end.

End Server.

(** The frames sent in a trace, and the requests made to the session. *)
Definition sent (t : list effect) : list (nat * frame) :=
  omap (fun e => match e with
                 | WsSend ws data => Some (ws, data)
                 | _ => None
                 end) t.

Definition session_calls (t : list effect) : list (string * jsvalue) :=
  omap (fun e => match e with
                 | CustomRequest command args => Some (command, args)
                 | _ => None
                 end) t.

(** The fields of a frame that carries an object. *)
Definition frame_prop (key : string) (data : frame) : jsvalue :=
  match data with
  | Doc (JObject props) => prop key props
  | _ => JUndefined
  end.

(** A frame is a response to [request]: its [type], [command] and [id]. *)
Definition answers_request (request : Request) (data : frame) : Prop :=
  frame_prop "type" data = JString "response"
  /\ frame_prop "command" data = JString (request_command request)
  /\ frame_prop "id" data = JString (request_id request).

(** *** Events of the debug adapter

    [broadcastEvent]: the event is serialised once and sent to the clients
    whose socket is open ([readyState] 1), in the order of the set
    [clients] (the order in which they connected). *)
Definition broadcastEvent (readyState : nat -> nat) (clients : list nat)
    (event : jsvalue) : M unit :=
  let message := JSON_stringify event in
  foldr (fun client rest =>
           bind (if decide (readyState client = 1)
                 then ws_send client message else ret tt)
                (fun _ => rest))
        (ret tt) clients.

(** [onDidSendMessage] of the tracker that [activate] registers for event
    tracking; [message] is a message of the debug adapter. *)
Definition onDidSendMessage (readyState : nat -> nat) (clients : list nat)
    (message : jsvalue) : M unit :=
  do type <- lift (get message "type");
  if is_string "event" type then
    do event <- lift (get message "event");
    if is_string "stopped" event then
      do body <- lift (get message "body");
      do reason <- lift (get body "reason");
      do threadId <- lift (get body "threadId");
      do description <- lift (get body "description");
      do allThreadsStopped <- lift (get body "allThreadsStopped");
      broadcastEvent readyState clients
        (JObject [("type", JString "event");
                  ("event", JString "debuggerStopped");
                  ("reason", or_else reason (JString "unknown"));
                  ("threadId", threadId);
                  ("description", description);
                  ("allThreadsStopped", allThreadsStopped)])
    else if is_string "continued" event then
      do body <- lift (get message "body");
      do threadId <- lift (get body "threadId");
      do allThreadsContinued <- lift (get body "allThreadsContinued");
      broadcastEvent readyState clients
        (JObject [("type", JString "event");
                  ("event", JString "debuggerContinued");
                  ("threadId", threadId);
                  ("allThreadsContinued", allThreadsContinued)])
    else ret tt
  else ret tt.

(** [createDebugAdapterTracker]: only a session of type "lldb" gets the
    tracker; the messages of another session are not looked at. *)
Definition createDebugAdapterTracker (session_type : string)
  : option ((nat -> nat) -> list nat -> jsvalue -> M unit) :=
  if decide (session_type = "lldb") then Some onDidSendMessage else None.

(** *** The set [clients], in the order of a JavaScript [Set] *)

(** [clients.add(ws)] *)
Definition Set_add (ws : nat) (clients : list nat) : list nat :=
  if decide (ws ∈ clients) then clients else clients ++ [ws].

(** [clients.delete(ws)] *)
Definition Set_delete (ws : nat) (clients : list nat) : list nat :=
  filter (fun c => c <> ws) clients.

(** What an event of the server does to the set. *)
Definition track (clients : list nat) (ev : ws_event) : list nat :=
  match ev with
  | Connection ws => Set_add ws clients
  | MessageFrom _ _ _ => clients
  | Close ws => Set_delete ws clients
  | SocketError ws => Set_delete ws clients
  end.


(** *** [startWebSocketServer]

    What becomes of one [new WebSocketServer({ port })]: it comes to
    listen, or it emits an error with a message, or the constructor
    throws. *)
Inductive binding :=
| Listens
| EmitsError (message : string)
| ConstructorThrows.

Definition bind_maxRetries : nat := 10.
Definition bind_retry_delay : N := 100.

(** The server emits the error of a port that is taken. *)
Definition in_use (b : binding) : bool :=
  match b with
  | EmitsError message => includes "EADDRINUSE" message
  | _ => false
  end.

(** How [startWebSocketServer] ends. *)
Record Startup := {
  servers : nat;              (* servers constructed *)
  bind_waited : N;            (* milliseconds spent between attempts *)
  bind_retries : nat;         (* the counter [retries], at the end *)
  currentPort : option N;     (* [currentPort] *)
  wss_defined : bool          (* whether [wss] holds a server *)
}.

(** The inner [tryStart]. [world n] is, for the attempt number [n], what
    [Math.floor(Math.random() * 50000)] comes to and the fate of the
    server. *)
Fixpoint tryStart (fuel : nat) (world : nat -> N * binding)
    (retries made : nat) (waited : N) : option Startup :=
  match fuel with
  | O => None
  | S fuel =>
      let port := ((world made).1 + 10000)%N in
      match (world made).2 with
      | ConstructorThrows =>
          Some {| servers := made; bind_waited := waited;
                  bind_retries := retries; currentPort := None;
                  wss_defined := false |}
      | Listens =>
          Some {| servers := S made; bind_waited := waited;
                  bind_retries := retries; currentPort := Some port;
                  wss_defined := true |}
      | EmitsError message =>
          if includes "EADDRINUSE" message then
            let retries := S retries in
            if decide (retries < bind_maxRetries) then
              tryStart fuel world retries (S made)
                (waited + bind_retry_delay)%N
            else
              Some {| servers := S made; bind_waited := waited;
                      bind_retries := retries; currentPort := None;
                      wss_defined := true |}
          else
            Some {| servers := S made; bind_waited := waited;
                    bind_retries := retries; currentPort := None;
                    wss_defined := true |}
      end
  end.

Definition startWebSocketServer (world : nat -> N * binding)
  : option Startup :=
  tryStart bind_maxRetries world 0 0 0.

End Extension.

(** ** The MCP server: the connecting role ([mcp-server/src/index.ts]) *)

Module McpServer.

Inductive ConnectionStatus := disconnected | connecting | connected.

(** [debuggerState] *)
Record DebuggerState := {
  isStopped : bool;
  currentThreadId : number;
  stopReason : string;
  connectionStatus : ConnectionStatus;
  connectionPort : option number
}.

Definition initial_debuggerState : DebuggerState :=
  {| isStopped := false; currentThreadId := of_Z 1; stopReason := "";
     connectionStatus := disconnected; connectionPort := None |}.

Definition set_connection (status : ConnectionStatus) (port : option number)
    (st : DebuggerState) : DebuggerState :=
  {| isStopped := isStopped st; currentThreadId := currentThreadId st;
     stopReason := stopReason st;
     connectionStatus := status; connectionPort := port |}.

Definition handleEvent (event : Event) (st : DebuggerState) : DebuggerState :=
  match event with
  | DebuggerStoppedEvent reason threadId _ _ =>
      {| isStopped := true; currentThreadId := threadId;
         stopReason := reason;
         connectionStatus := connectionStatus st;
         connectionPort := connectionPort st |}
  | DebuggerContinuedEvent _ _ =>
      {| isStopped := false; currentThreadId := currentThreadId st;
         stopReason := stopReason st;
         connectionStatus := connectionStatus st;
         connectionPort := connectionPort st |}
  end.

(** *** [connectToExtension]

    What becomes of one [new WebSocket(url)]: the constructor throws, or
    the socket reports [open] or [error] some milliseconds later, or
    neither. *)
Inductive attempt :=
| Throws (error : thrown)
| Opens (after : N)
| Fails (after : N) (error : thrown)
| Silent.

Definition maxRetries : nat := 5.
Definition connection_timeout : N := 5000.
Definition retry_delay : N := 2000.

(** How a call of [connectToExtension] ends. *)
Record Connection := {
  outcome : thrown + unit;     (* the promise: rejected with, or fulfilled *)
  attempts : nat;              (* sockets constructed *)
  waited : N;                  (* milliseconds spent between attempts *)
  retryCount : nat;            (* the counter of the call, at the end *)
  state : DebuggerState
}.

Definition connection_timed_out (attempts : nat) (waited : N)
    (retryCount : nat) (st : DebuggerState) : Connection :=
  {| outcome := inl (ErrorObject "Connection timeout");
     attempts := S attempts; waited := waited; retryCount := retryCount;
     state := set_connection disconnected None st |}.

(** The inner [connect]. The promise made in the [try] block is returned,
    not awaited: its rejection (by the timeout or by [onerror]) settles the
    call and does not enter the [catch] block, which only sees what the
    [WebSocket] constructor throws. [world n] is the fate of the socket
    number [n]. *)
Fixpoint connect (fuel : nat) (world : nat -> attempt)
    (retryCount attempts : nat) (waited : N) (st : DebuggerState)
  : option Connection :=
  match fuel with
  | O => None
  | S fuel =>
      if decide (maxRetries <= retryCount) then
        Some {| outcome := inl (ErrorObject "Failed to connect after 5 attempts");
                attempts := attempts; waited := waited;
                retryCount := retryCount;
                state := set_connection disconnected None st |}
      else
        match world attempts with
        | Throws error =>
            let retryCount := S retryCount in
            if decide (retryCount < maxRetries) then
              connect fuel world retryCount (S attempts)
                (waited + retry_delay)%N st
            else
              Some {| outcome := inl error;
                      attempts := S attempts; waited := waited;
                      retryCount := retryCount; state := st |}
        | Opens after =>
            if decide (after < connection_timeout)%N then
              Some {| outcome := inr tt;
                      attempts := S attempts; waited := waited;
                      retryCount := 0;
                      state := set_connection connected
                                 (connectionPort st) st |}
            else Some (connection_timed_out attempts waited retryCount st)
        | Fails after error =>
            if decide (after < connection_timeout)%N then
              Some {| outcome := inl error;
                      attempts := S attempts; waited := waited;
                      retryCount := retryCount;
                      state := set_connection disconnected None st |}
            else Some (connection_timed_out attempts waited retryCount st)
        | Silent => Some (connection_timed_out attempts waited retryCount st)
        end
  end.

Definition connectToExtension (world : nat -> attempt) (port : number)
    (st : DebuggerState) : option Connection :=
  connect (S maxRetries) world 0 0 0 (set_connection connecting (Some port) st).

(** *** The request correlator

    A promise made by [sendRequest] is known by its number. A settlement is
    a call of its [resolve] or [reject]. *)
Inductive settlement :=
| Resolved (response : Response)
| Rejected (error : thrown).

(** A [setTimeout] of [sendRequest] that is still to fire: when, and the
    [id] its callback deletes. *)
Record Timer := { deadline : N; timer_id : string }.

Definition request_timeout : N := 30000.

Record Server := {
  debuggerState : DebuggerState;
  (* [responseHandlers]; the handler of a promise is kept as its number *)
  responseHandlers : gmap string nat;
  timers : list (nat * Timer);
  clock : N;                                  (* milliseconds *)
  promises : nat;                             (* promises made so far *)
  settlements : list (nat * N * settlement);  (* promise, time, call *)
  outbox : list frame                         (* [ws.send], latest first *)
}.

Definition initial : Server :=
  {| debuggerState := initial_debuggerState; responseHandlers := ∅;
     timers := []; clock := 0; promises := 0; settlements := [];
     outbox := [] |}.

(** [resolve]/[reject] of promise [p] is called. *)
Definition settle (p : nat) (how : settlement) (s : Server) : Server :=
  {| debuggerState := debuggerState s;
     responseHandlers := responseHandlers s;
     timers := timers s; clock := clock s; promises := promises s;
     settlements := (p, clock s, how) :: settlements s;
     outbox := outbox s |}.

Definition clearTimeout (p : nat) (s : Server) : Server :=
  {| debuggerState := debuggerState s;
     responseHandlers := responseHandlers s;
     timers := filter (fun kt => kt.1 <> p) (timers s);
     clock := clock s; promises := promises s;
     settlements := settlements s; outbox := outbox s |}.

(** [this.responseHandlers.delete(id)] *)
Definition delete_handler (id : string) (s : Server) : Server :=
  {| debuggerState := debuggerState s;
     responseHandlers := delete id (responseHandlers s);
     timers := timers s; clock := clock s; promises := promises s;
     settlements := settlements s; outbox := outbox s |}.

(** How the connection check at the head of [sendRequest] ends: the socket
    is open or the reconnection went through; or the reconnection failed,
    with the message of its error; or a connection is being made. In the
    last two cases the function throws. *)
Inductive link :=
| Ready
| ReconnectionFailed (error_message : string)
| StillConnecting.

(** [sendRequest] throws before it makes its promise: the promise of the
    call is rejected. *)
Definition refuse (error : thrown) (s : Server) : Server :=
  let p := promises s in
  {| debuggerState := debuggerState s;
     responseHandlers := responseHandlers s;
     timers := timers s; clock := clock s; promises := S p;
     settlements := (p, clock s, Rejected error) :: settlements s;
     outbox := outbox s |}.

(** The promise [sendRequest] makes: the timer is set, the handler is
    registered under [id], the request is sent with its [id]. *)
Definition register (id : string) (request : list (string * jsvalue))
    (s : Server) : Server :=
  let p := promises s in
  let requestWithId := JObject (spread_set "id" (JString id) request) in
  {| debuggerState := debuggerState s;
     responseHandlers := <[id := p]> (responseHandlers s);
     timers := timers s
               ++ [(p, {| deadline := (clock s + request_timeout)%N;
                          timer_id := id |})];
     clock := clock s; promises := S p;
     settlements := settlements s;
     outbox := JSON_stringify requestWithId :: outbox s |}.

(** [sendRequest]; [random] is the text
    [Math.random().toString(36).substring(7)] comes to. *)
Definition sendRequest (l : link) (random : string)
    (request : list (string * jsvalue)) (s : Server) : Server :=
  match l with
  | ReconnectionFailed error_message =>
      refuse
        (ErrorObject
           ("Not connected to VS Code extension and reconnection failed: "
            +:+ error_message)) s
  | StillConnecting =>
      refuse
        (ErrorObject
           "Connection to VS Code extension is still being established") s
  | Ready => register random request s
  end.

(** [response.error || "Request failed"] *)
Definition error_or_default (error : option string) : string :=
  match error with
  | Some e => if decide (e = "") then "Request failed" else e
  | None => "Request failed"
  end.

(** The handler [sendRequest] registers for promise [p]. *)
Definition handler (p : nat) (response : Response) (s : Server) : Server :=
  let s := clearTimeout p s in
  if response_success response then settle p (Resolved response) s
  else settle p
         (Rejected (ErrorObject (error_or_default (response_error response))))
         s.

(** What a response does to the promise it is handed to. *)
Definition response_settlement (response : Response) : settlement :=
  if response_success response then Resolved response
  else Rejected (ErrorObject (error_or_default (response_error response))).

Definition set_debuggerState (st : DebuggerState) (s : Server) : Server :=
  {| debuggerState := st;
     responseHandlers := responseHandlers s;
     timers := timers s; clock := clock s; promises := promises s;
     settlements := settlements s; outbox := outbox s |}.

Definition set_clock (now : N) (s : Server) : Server :=
  {| debuggerState := debuggerState s;
     responseHandlers := responseHandlers s;
     timers := timers s; clock := now; promises := promises s;
     settlements := settlements s; outbox := outbox s |}.

Definition set_timers (l : list (nat * Timer)) (s : Server) : Server :=
  {| debuggerState := debuggerState s;
     responseHandlers := responseHandlers s;
     timers := l; clock := clock s; promises := promises s;
     settlements := settlements s; outbox := outbox s |}.

(** The timer of promise [p] fires, when its time has come: its callback
    runs. *)
Definition timeout_fires (p : nat) (t : Timer) (s : Server) : Server :=
  settle p (Rejected (ErrorObject "Request timeout"))
    (delete_handler (timer_id t) (set_clock (deadline t) s)).

(** [ws.onmessage] *)
Definition onmessage (data : frame) (s : Server) : Server :=
  match JSON_parse data with
  | inl _ => s
  | inr message =>
      match messageSchema message with
      | Some (MResponse response) =>
          match responseHandlers s !! response_id response with
          | Some p =>
              delete_handler (response_id response) (handler p response s)
          | None => s
          end
      | Some (MEvent event) =>
          set_debuggerState (handleEvent event (debuggerState s)) s
      | _ => s
      end
  end.

Definition fire_all (due : list (nat * Timer)) (s : Server) : Server :=
  foldl (fun s kt => timeout_fires kt.1 kt.2 s) s due.

(** [ms] milliseconds pass with nothing else happening: the timers that
    come due fire, each at its time, in the order they were set (all have
    the same delay). *)
Definition elapse (ms : N) (s : Server) : Server :=
  let now := (clock s + ms)%N in
  let due := filter (fun kt => (deadline kt.2 <= now)%N) (timers s) in
  let rest := filter (fun kt => ~ (deadline kt.2 <= now)%N) (timers s) in
  set_clock now (fire_all due (set_timers rest s)).

Inductive input :=
| Send (l : link) (random : string) (request : list (string * jsvalue))
| Receive (data : frame)
| Elapse (ms : N).

Definition step (s : Server) (i : input) : Server :=
  match i with
  | Send l random request => sendRequest l random request s
  | Receive data => onmessage data s
  | Elapse ms => elapse ms s
  end.

Definition run (inputs : list input) (s : Server) : Server :=
  foldl step s inputs.

(** The calls of [resolve]/[reject] of promise [p] so far, latest first. *)
Definition settled (p : nat) (s : Server) : list (N * settlement) :=
  omap (fun e => if decide (e.1.1 = p) then Some (e.1.2, e.2) else None)
    (settlements s).

(** The time a sequence of inputs takes. *)
Definition elapsed (inputs : list input) : N :=
  foldr (fun i t => match i with Elapse ms => (ms + t)%N | _ => t end)
    0%N inputs.

(** The input is a response frame carrying [id]. *)
Definition answers (id : string) (i : input) : Prop :=
  match i with
  | Receive data =>
      match decode data with
      | Some (MResponse r) => response_id r = id
      | _ => False
      end
  | _ => False
  end.

(** What holds of the correlator in every state it reaches: a registered
    handler belongs to a promise whose timer is still to fire and carries
    the same id; a promise has at most one timer; a promise with a timer
    has not been settled, and its timer is due within the window; a promise
    without one has been settled once; the promises to come have not been
    settled. *)
Record invariant (s : Server) : Prop := {
  inv_handlers : forall id p,
    responseHandlers s !! id = Some p ->
    exists t, (p, t) ∈ timers s /\ timer_id t = id;
  inv_timers : NoDup (timers s).*1;
  inv_pending : forall p t,
    (p, t) ∈ timers s ->
    p < promises s /\ settled p s = []
    /\ (clock s < deadline t <= clock s + request_timeout)%N;
  inv_settled : forall p,
    p < promises s -> p ∉ (timers s).*1 -> length (settled p s) = 1;
  inv_fresh : forall p, promises s <= p -> settled p s = []
}.

(** What the attempt that settles a call of [connectToExtension] makes of
    it: the promise, and the connection fields of the cache. *)
Definition attempt_result (a : attempt) (port : number)
  : (thrown + unit) * ConnectionStatus * option number :=
  match a with
  | Throws error => (inl error, connecting, Some port)
  | Opens after =>
      if decide (after < connection_timeout)%N
      then (inr tt, connected, Some port)
      else (inl (ErrorObject "Connection timeout"), disconnected, None)
  | Fails after error =>
      if decide (after < connection_timeout)%N
      then (inl error, disconnected, None)
      else (inl (ErrorObject "Connection timeout"), disconnected, None)
  | Silent => (inl (ErrorObject "Connection timeout"), disconnected, None)
  end.

Definition throws (a : attempt) : bool :=
  match a with Throws _ => true | _ => false end.

(** *** The connection check of [sendRequest]

    [this.ws] is open, or it is not (there is none, or it is in another
    state). *)
Inductive check :=
| Proceed         (* the socket is open: the request goes out *)
| Reconnect       (* [connectToExtension] is awaited first *)
| Refuse.         (* "... is still being established" is thrown *)

Definition connection_check (ws_open : bool) (st : DebuggerState) : check :=
  if ws_open then Proceed
  else match connectionStatus st with
       | connecting => Refuse
       | _ => Reconnect
       end.

(** *** The tool [debugger_executeLldbCommand] *)

(** The request the tool hands to [sendRequest]. *)
Definition tool_request (command : string) : list (string * jsvalue) :=
  [("type", JString "request");
   ("command", JString "executeLldbCommand");
   ("lldb_command", JString command)].

(** [response.result] of whatever response the promise was resolved
    with. *)
Definition response_result (response : Response) : option string :=
  match response with
  | ExecuteLldbCommandResponse _ result _ _ => result
  | _ => None
  end.

(** What the tool returns: the text of its one content item, and
    [isError] (the success branch leaves the key out: [false] here). *)
Record ToolResult := { tool_text : string; tool_isError : bool }.

(** The tool, once the promise of [sendRequest] is settled. *)
Definition tool_result (how : settlement) : ToolResult :=
  match how with
  | Resolved response =>
      {| tool_text :=
           match response_result response with
           | Some (String c rest) => String c rest
           | _ => "Command executed successfully"
           end;
         tool_isError := false |}
  | Rejected error =>
      {| tool_text := "Error: " +:+ message_or "Command execution failed" error;
         tool_isError := true |}
  end.

(** *** What reaches the cache *)


End McpServer.

Import Extension McpServer.

(** * Properties *)

(** ** The command dispatcher *)

Section Dispatcher.

Implicit Types (active : option DebugSession) (ws : nat) (id : string).

Lemma lldb_session_none active :
  (forall s, active = Some s -> session_type s <> "lldb") ->
  lldb_session active = None.
Proof.
  intros H. destruct active as [s|]; [|reflexivity].
  unfold lldb_session. destruct (decide _) as [E|]; [|reflexivity].
  exfalso. exact (H s eq_refl E).
Qed.

(** A successful response keeps its discriminants and its id on the wire,
    whatever the session returned as payload. *)
Lemma success_frame command key payload id :
  key <> "type" -> key <> "command" -> key <> "id" ->
  let data := JSON_stringify
                (JObject [("type", JString "response");
                          ("command", JString command);
                          ("success", JBool true);
                          (key, payload);
                          ("id", JString id)]) in
  frame_prop "type" data = JString "response"
  /\ frame_prop "command" data = JString command
  /\ frame_prop "id" data = JString id.
Proof.
  intros Ht Hc Hi. cbn -[prop].
  destruct payload; cbn; repeat (destruct (decide _); try done).
Qed.

(** The trace of a handler is in hand: it ends normally and holds one
    frame, a failed response or (the goal that is left) a successful one. *)
Local Ltac one_send :=
  eexists _, _; split; [reflexivity|]; split; [reflexivity|];
  try (repeat split; fail).

Local Tactic Notation "await_session" constr(session) "as" ident(x) :=
  unfold customRequest, try_catch, bind, lift;
  destruct (session_answer session _ _) as [?|x]; cbn [fst snd].

Local Tactic Notation "read_prop" constr(v) constr(key) "as" ident(x) :=
  destruct (get v key) as [?|x]; cbn [fst snd].

(** Each handler ends normally after exactly one [ws.send], of a response
    to its request. *)
Lemma handleRequest_one_response active ws request :
  exists trace data,
    handleRequest active ws request = (trace, inr tt)
    /\ sent trace = [(ws, data)]
    /\ answers_request request data.
Proof.
  destruct request as [lldb_command id frameId | threadId id | ref id];
    cbn [handleRequest].
  - unfold handleExecuteLldbCommand.
    destruct (lldb_session active) as [session|]; [|one_send].
    await_session session as result; [one_send|].
    read_prop result "result" as text; one_send.
    apply (success_frame "executeLldbCommand" "result"); done.
  - unfold handleGetStackTrace.
    destruct (lldb_session active) as [session|]; [|one_send].
    await_session session as result; [one_send|].
    read_prop result "body" as body; [one_send|].
    read_prop body "stackFrames" as stackFrames; one_send.
    apply (success_frame "getStackTrace" "stackFrames"); done.
  - unfold handleGetVariables.
    destruct (lldb_session active) as [session|]; [|one_send].
    destruct (is_zero ref) eqn:Hzero.
    { unfold try_catch, ws_send. one_send. }
    await_session session as result; [one_send|].
    read_prop result "body" as body; [one_send|].
    read_prop body "variables" as variables; one_send.
    apply (success_frame "getVariables" "variables"); done.
Qed.

(** C2. For every accepted request (executeLldbCommand, getStackTrace or
    getVariables) the dispatcher emits exactly one response, whose id is
    the id of the request, on the success path and on the failure path
    alike; no exception leaves the handler without a response, and no second
    response is sent: the message handler of the connection does, on the
    frame, what [handleRequest] does, and that ends normally after one
    [ws.send] of a response to the request. *)
Theorem dispatcher_exactly_one_response
    (format : jsvalue -> jsvalue) active ws message request :
  messageSchema message = Some (MRequest request) ->
  on_message format active ws (Doc message) = handleRequest active ws request
  /\ exists trace data,
       handleRequest active ws request = (trace, inr tt)
       /\ sent trace = [(ws, data)]
       /\ answers_request request data.
Proof.
  intros Haccepted.
  destruct (handleRequest_one_response active ws request)
    as (trace & data & Hrun & Hsent & Hdata).
  split; [|by exists trace, data].
  unfold on_message, lift, bind, try_catch. cbn [JSON_parse fst snd].
  rewrite Haccepted, Hrun. reflexivity.
Qed.

(** C5. With no active LLDB debug session every command variant answers
    [success: false] with the text "No active LLDB debug session"; the
    session is not asked anything and nothing is thrown. *)
Theorem no_session_fails_every_command active ws request :
  (forall s, active = Some s -> session_type s <> "lldb") ->
  handleRequest active ws request
  = ([WsSend ws
        (Doc (JObject [("type", JString "response");
                       ("command", JString (request_command request));
                       ("success", JBool false);
                       ("error", JString "No active LLDB debug session");
                       ("id", JString (request_id request))]))],
     inr tt)
  /\ session_calls (handleRequest active ws request).1 = [].
Proof.
  intros Hnone%lldb_session_none.
  destruct request; cbn [handleRequest];
    unfold handleExecuteLldbCommand, handleGetStackTrace, handleGetVariables;
    rewrite Hnone; split; reflexivity.
Qed.

(** C6, as the code has it. A getVariables request whose
    variablesReference is 0 is answered [success: false] and the session's
    [variables] operation is never invoked; the error asks for a valid
    variablesReference from a stack frame when an LLDB session is active,
    and is the "No active LLDB debug session" text when none is. *)
Theorem getVariables_zero_fails_locally active ws ref id :
  is_zero ref = true ->
  let error :=
    match lldb_session active with
    | Some _ => "Please provide a valid variablesReference from a stack frame"
    | None => "No active LLDB debug session"
    end in
  handleRequest active ws (GetVariablesRequest ref id)
  = ([WsSend ws (JSON_stringify (failure "getVariables" error id))], inr tt)
  /\ session_calls (handleRequest active ws (GetVariablesRequest ref id)).1
     = [].
Proof.
  intros Hzero. cbn [handleRequest]. unfold handleGetVariables.
  destruct (lldb_session active); rewrite ?Hzero; split; reflexivity.
Qed.

(** C10. In the getVariables handler the session check comes before the
    check of the reference: for a variablesReference of 0 the session is
    never contacted, and with no active LLDB session the error of the
    response is the "No active LLDB debug session" text, not the one
    about the reference. *)
Theorem getVariables_checks_session_first active ws ref id :
  is_zero ref = true ->
  session_calls (handleGetVariables active ws ref id).1 = []
  /\ ((forall s, active = Some s -> session_type s <> "lldb") ->
      exists data,
        sent (handleGetVariables active ws ref id).1 = [(ws, data)]
        /\ frame_prop "success" data = JBool false
        /\ frame_prop "error" data = JString "No active LLDB debug session"
        /\ frame_prop "error" data
           <> JString
                "Please provide a valid variablesReference from a stack frame").
Proof.
  intros Hzero. split.
  - unfold handleGetVariables.
    destruct (lldb_session active); rewrite ?Hzero; reflexivity.
  - intros Hnone%lldb_session_none. unfold handleGetVariables.
    rewrite Hnone. eexists. split; [reflexivity|]. by repeat split.
Qed.

End Dispatcher.

(** C2 at a stack-trace request that the session answers. *)
Lemma dispatcher_exactly_one_response_witness :
  let request := GetStackTraceRequest (of_Z 1) "r1" in
  let active :=
    Some {| session_type := "lldb";
            session_answer := fun _ _ =>
              inr (JObject [("body", JObject [("stackFrames", JArray [])])])
         |} in
  on_message (fun _ => JNull) active 7 (Doc (Request_object request))
  = handleRequest active 7 request
  /\ exists trace data,
       handleRequest active 7 request = (trace, inr tt)
       /\ sent trace = [(7, data)]
       /\ answers_request request data.
Proof.
  intros request active.
  apply (dispatcher_exactly_one_response (fun _ => JNull) active 7
           (Request_object request) request).
  reflexivity.
Defined.

(** C5 at an evaluate request, with a session of another debugger. *)
Lemma no_session_fails_every_command_witness :
  let request := ExecuteLldbCommandRequest "bt" "r2" None in
  let active :=
    Some {| session_type := "node";
            session_answer := fun _ _ => inr JNull |} in
  handleRequest active 7 request
  = ([WsSend 7
        (Doc (JObject [("type", JString "response");
                       ("command", JString "executeLldbCommand");
                       ("success", JBool false);
                       ("error", JString "No active LLDB debug session");
                       ("id", JString "r2")]))],
     inr tt)
  /\ session_calls (handleRequest active 7 request).1 = [].
Proof.
  intros request active.
  apply (no_session_fails_every_command active 7 request).
  intros s [= <-]. cbn. discriminate.
Defined.

(** C6 as stated fails where no session is active: the error of the
    response to a variablesReference of 0 is then the session text. *)
Lemma getVariables_zero_without_session :
  is_zero (of_Z 0) = true
  /\ sent (handleRequest None 7 (GetVariablesRequest (of_Z 0) "r3")).1
     = [(7, JSON_stringify
              (failure "getVariables" "No active LLDB debug session" "r3"))]
  /\ frame_prop "error"
       (JSON_stringify
          (failure "getVariables" "No active LLDB debug session" "r3"))
     <> JString "Please provide a valid variablesReference from a stack frame".
Proof. repeat split. discriminate. Qed.

(** C6 (amended) at reference 0 with an LLDB session. *)
Lemma getVariables_zero_fails_locally_witness :
  let active :=
    Some {| session_type := "lldb";
            session_answer := fun _ _ => inr JNull |} in
  handleRequest active 7 (GetVariablesRequest (of_Z 0) "r4")
  = ([WsSend 7
        (JSON_stringify
           (failure "getVariables"
              "Please provide a valid variablesReference from a stack frame"
              "r4"))],
     inr tt)
  /\ session_calls
       (handleRequest active 7 (GetVariablesRequest (of_Z 0) "r4")).1 = [].
Proof.
  intros active.
  apply (getVariables_zero_fails_locally active 7 (of_Z 0) "r4").
  reflexivity.
Defined.

(** C10 at reference 0 with no session at all. *)
Lemma getVariables_checks_session_first_witness :
  exists data,
    sent (handleGetVariables None 7 (of_Z 0) "r5").1 = [(7, data)]
    /\ frame_prop "success" data = JBool false
    /\ frame_prop "error" data = JString "No active LLDB debug session"
    /\ frame_prop "error" data
       <> JString
            "Please provide a valid variablesReference from a stack frame".
Proof.
  apply (getVariables_checks_session_first None 7 (of_Z 0) "r5").
  - reflexivity.
  - intros s. discriminate.
Defined.

(** ** Malformed frames *)

Section Malformed.

Variable format : jsvalue -> jsvalue.

(** The reply of the listening role to a frame it cannot decode. *)
Lemma on_message_malformed active ws data :
  decode data = None ->
  exists reply,
    on_message format active ws data = ([WsSend ws reply], inr tt)
    /\ frame_prop "type" reply = JString "error"
    /\ decode reply = None.
Proof.
  unfold decode, on_message, lift, bind, try_catch.
  destruct data as [syntax_error|v]; cbn [JSON_parse fst snd].
  - intros _. eexists. split; [reflexivity|]. split; reflexivity.
  - intros ->. cbn [fst snd app]. eexists. split; [reflexivity|].
    destruct (format v); split; reflexivity.
Qed.

(** C8. A frame that fails validation: the listening role answers the
    sender with one message whose discriminant is "error" (which is not a
    message of the protocol), keeps the peer among its clients and handles
    the traffic that follows as before, throwing nothing; the connecting
    role drops the frame and is left as it was. *)
Theorem malformed_frame_is_survived
    clients ws data active (rest : list ws_event) (s : Server) :
  decode data = None ->
  exists reply,
    on_event format clients (MessageFrom ws data active)
    = (clients, ([WsSend ws reply], inr tt))
    /\ frame_prop "type" reply = JString "error"
    /\ decode reply = None
    /\ serve format clients (MessageFrom ws data active :: rest)
       = (let '(final, trace, uncaught) := serve format clients rest in
          (final, WsSend ws reply :: trace, uncaught))
    /\ onmessage data s = s.
Proof.
  intros Hbad.
  destruct (on_message_malformed active ws data Hbad)
    as (reply & Hrun & Htype & Hreply).
  exists reply. cbn [on_event serve]. rewrite Hrun.
  split; [reflexivity|]. split; [assumption|]. split; [assumption|]. split.
  - by destruct (serve format clients rest) as [[final trace] uncaught].
  - unfold onmessage. unfold decode in Hbad.
    destruct (JSON_parse data); [reflexivity|]. by rewrite Hbad.
Qed.

End Malformed.

(** C8 at a request that lacks its id, followed by a well-formed one. *)
Lemma malformed_frame_is_survived_witness :
  let bad := Doc (JObject [("type", JString "request");
                           ("command", JString "getStackTrace");
                           ("threadId", JNumber (of_Z 1))]) in
  let good := MessageFrom 7
                (Doc (Request_object (GetStackTraceRequest (of_Z 1) "r6")))
                None in
  exists reply,
    on_event (fun _ => JNull) {[7]} (MessageFrom 7 bad None)
    = ({[7]}, ([WsSend 7 reply], inr tt))
    /\ frame_prop "type" reply = JString "error"
    /\ decode reply = None
    /\ serve (fun _ => JNull) {[7]} [MessageFrom 7 bad None; good]
       = (let '(final, trace, uncaught) :=
            serve (fun _ => JNull) {[7]} [good] in
          (final, WsSend 7 reply :: trace, uncaught))
    /\ onmessage bad initial = initial.
Proof.
  intros bad good.
  apply (malformed_frame_is_survived (fun _ => JNull) {[7]} 7 bad None
           [good] initial).
  reflexivity.
Defined.

(** ** The session state cache *)

(** C7. Folding [handleEvent] over debuggerStopped(1, "breakpoint"),
    debuggerContinued(1), debuggerStopped(2, "exception") from the initial
    state gives isStopped = true, currentThreadId = 2, stopReason =
    "exception", and so does receiving the three events as frames; in
    general debuggerStopped sets isStopped and takes over the thread and
    the reason, and debuggerContinued only clears isStopped. *)
Theorem session_state_cache_fold :
  (forall d1 a1 a2 d3 a3,
     let events :=
       [DebuggerStoppedEvent "breakpoint" (of_Z 1) d1 a1;
        DebuggerContinuedEvent (of_Z 1) a2;
        DebuggerStoppedEvent "exception" (of_Z 2) d3 a3] in
     let final :=
       {| isStopped := true; currentThreadId := of_Z 2;
          stopReason := "exception";
          connectionStatus := disconnected; connectionPort := None |} in
     foldl (fun st e => handleEvent e st) initial_debuggerState events = final
     /\ debuggerState
          (run (map (fun e => Receive (JSON_stringify (Event_object e)))
                  events) initial) = final)
  /\ (forall st reason threadId description allThreadsStopped,
        handleEvent
          (DebuggerStoppedEvent reason threadId description allThreadsStopped)
          st
        = {| isStopped := true; currentThreadId := threadId;
             stopReason := reason;
             connectionStatus := connectionStatus st;
             connectionPort := connectionPort st |})
  /\ (forall st threadId allThreadsContinued,
        handleEvent (DebuggerContinuedEvent threadId allThreadsContinued) st
        = {| isStopped := false; currentThreadId := currentThreadId st;
             stopReason := stopReason st;
             connectionStatus := connectionStatus st;
             connectionPort := connectionPort st |}).
Proof.
  split; [|split; reflexivity].
  intros d1 a1 a2 d3 a3. split; [reflexivity|].
  destruct d1, a1, a2, d3, a3; reflexivity.
Qed.

(** ** The message codec: serialising and parsing back *)

Section RoundTrip.

(** A number that JSON text carries as it is. *)
Local Abbreviation exact := (fun n : number => json_exact n = true).

(** A number that [z.number()] accepts. *)
Local Abbreviation valid := (fun n : number => isNaN n = false).

(** A goal about a message with one number in it: by cases on the number,
    the hypothesis [H] excluding those that are not exact (or not valid),
    then by evaluation. *)
Local Ltac one_number n H :=
  destruct n as [[]|[]| |]; try discriminate H; vm_compute; reflexivity.

Local Ltac valid_number n H :=
  destruct n; try discriminate H; vm_compute; reflexivity.

(** *** In memory: the typed messages are the values the schema accepts *)

Lemma stackFrame_valid f :
  Forall valid (StackFrame_numbers f) ->
  stackFrameSchema (StackFrame_object f) = Some f.
Proof.
  destruct f as [id name source line column]. unfold StackFrame_numbers.
  cbn [frame_id frame_line frame_column].
  intros (Hid & (Hline & (Hcol & _)%Forall_cons)%Forall_cons)%Forall_cons.
  destruct id; try discriminate Hid;
  destruct line; try discriminate Hline;
  destruct column; try discriminate Hcol;
  destruct source as [[[n|] [p|]]|]; vm_compute; reflexivity.
Qed.

Lemma variable_valid x :
  valid (variable_variablesReference x) ->
  variableSchema (Variable_object x) = Some x.
Proof.
  destruct x as [name value type ref]. cbn [variable_variablesReference].
  intros Href. destruct type; destruct ref; try discriminate Href;
    vm_compute; reflexivity.
Qed.

(** An array parses element by element. *)
Lemma mapM_parses {A} (s : schema A) (to : A -> jsvalue)
    (ok : A -> Prop) (l : list A) :
  (forall a, ok a -> s (to a) = Some a) ->
  Forall ok l ->
  mapM s (map to l) = Some l.
Proof.
  intros Hone. induction 1 as [|a l Ha _ IH]; [reflexivity|].
  cbn [map].
  change (mapM s (?x :: ?l)) with (y ← s x; k ← mapM s l; mret (y :: k)).
  rewrite (Hone a Ha). cbn [mbind option_bind]. rewrite IH. reflexivity.
Qed.

(** The union picks the stack-trace response, whatever the frames. *)
Lemma stackTrace_response_parses success items l error id :
  mapM stackFrameSchema items = Some l ->
  messageSchema
    (JObject ([("type", JString "response");
               ("command", JString "getStackTrace");
               ("success", JBool success);
               ("stackFrames", JArray items)]
              ++ field "error" JString error ++ [("id", JString id)]))
  = Some (MResponse (GetStackTraceResponse success (Some l) error id)).
Proof.
  intros H.
  destruct error; vm_compute; vm_compute in H; rewrite H; reflexivity.
Qed.

Lemma variables_response_parses success items l error id :
  mapM variableSchema items = Some l ->
  messageSchema
    (JObject ([("type", JString "response");
               ("command", JString "getVariables");
               ("success", JBool success);
               ("variables", JArray items)]
              ++ field "error" JString error ++ [("id", JString id)]))
  = Some (MResponse (GetVariablesResponse success (Some l) error id)).
Proof.
  intros H.
  destruct error; vm_compute; vm_compute in H; rewrite H; reflexivity.
Qed.

(** A typed message none of whose numbers is [NaN] passes the schema, as
    itself: these are the message values valid under the schema. *)
Lemma typed_message_is_valid (m : Message) :
  Forall valid (Message_numbers m) ->
  messageSchema (Message_object m) = Some m.
Proof.
  destruct m as [r|r|e].
  - destruct r as [lldb_command id [frameId|] | threadId id | ref id];
      cbn [Message_numbers]; intros Hn;
      [apply Forall_cons in Hn as [Hn _]; valid_number frameId Hn
      |vm_compute; reflexivity
      |apply Forall_cons in Hn as [Hn _]; valid_number threadId Hn
      |apply Forall_cons in Hn as [Hn _]; valid_number ref Hn].
  - destruct r as [success [result|] [error|] id
                  | success [frames|] error id
                  | success [variables|] error id];
      cbn [Message_numbers]; intros Hn.
    1-4, 6, 8: by (try destruct error; vm_compute).
    + apply (stackTrace_response_parses success
               (map StackFrame_object frames)).
      apply (mapM_parses _ _ _ _ stackFrame_valid).
      by rewrite Forall_concat, Forall_map in Hn.
    + apply (variables_response_parses success
               (map Variable_object variables)).
      apply (mapM_parses _ _ _ _ variable_valid).
      by rewrite Forall_map in Hn.
  - destruct e as [reason threadId [d|] [a|] | threadId [a|]];
      cbn [Message_numbers]; intros [Hn _]%Forall_cons;
      valid_number threadId Hn.
Qed.

(** *** Through JSON text *)

(** The optional, nested [source] of a stack frame has no number in it. *)
Lemma source_round_trip s : sourceSchema (wire (Source_object s)) = Some s.
Proof. destruct s as [[n|] [p|]]; reflexivity. Qed.

Lemma stackFrame_round_trip f :
  Forall exact (StackFrame_numbers f) ->
  stackFrameSchema (wire_item (StackFrame_object f)) = Some f.
Proof.
  destruct f as [id name source line column]. unfold StackFrame_numbers.
  cbn [frame_id frame_line frame_column].
  intros (Hid & (Hline & (Hcol & _)%Forall_cons)%Forall_cons)%Forall_cons.
  destruct id as [[]|[]| |]; try discriminate Hid;
  destruct line as [[]|[]| |]; try discriminate Hline;
  destruct column as [[]|[]| |]; try discriminate Hcol;
  destruct source as [[[n|] [p|]]|]; vm_compute; reflexivity.
Qed.

Lemma variable_round_trip x :
  exact (variable_variablesReference x) ->
  variableSchema (wire_item (Variable_object x)) = Some x.
Proof.
  destruct x as [name value type ref]. cbn [variable_variablesReference].
  intros Href.
  destruct type; one_number ref Href.
Qed.

(** An array on the wire parses element by element. *)
Lemma mapM_round_trip {A} (s : schema A) (to : A -> jsvalue)
    (ok : A -> Prop) (l : list A) :
  (forall a, ok a -> s (wire_item (to a)) = Some a) ->
  Forall ok l ->
  mapM s (map wire_item (map to l)) = Some l.
Proof.
  intros Hone Hl. rewrite map_map.
  by apply (mapM_parses s (fun a => wire_item (to a)) ok).
Qed.

(** C9, as the code has it. A message of one of the three kinds whose
    numeric fields are finite and not the negative zero (the numbers JSON
    text carries as they are) is, once serialised and parsed back through
    the message schema, the message it was: no field is lost and none
    changes type. *)
Theorem message_round_trip (m : Message) :
  Forall (fun n => json_exact n = true) (Message_numbers m) ->
  decode (JSON_stringify (Message_object m)) = Some m.
Proof.
  unfold decode, JSON_stringify. cbn [JSON_parse].
  destruct m as [r|r|e].
  - destruct r as [lldb_command id [frameId|] | threadId id | ref id];
      cbn [Message_numbers]; intros Hn;
      [apply Forall_cons in Hn as [Hn _]; one_number frameId Hn
      |vm_compute; reflexivity
      |apply Forall_cons in Hn as [Hn _]; one_number threadId Hn
      |apply Forall_cons in Hn as [Hn _]; one_number ref Hn].
  - destruct r as [success [result|] [error|] id
                  | success [frames|] error id
                  | success [variables|] error id];
      cbn [Message_numbers]; intros Hn.
    1-4, 6, 8: by (try destruct error; vm_compute).
    + etransitivity;
        [|apply (stackTrace_response_parses success
                   (map wire_item (map StackFrame_object frames)));
          apply (mapM_round_trip _ _ _ _ stackFrame_round_trip);
          by rewrite Forall_concat, Forall_map in Hn].
      destruct error; vm_compute; reflexivity.
    + etransitivity;
        [|apply (variables_response_parses success
                   (map wire_item (map Variable_object variables)));
          apply (mapM_round_trip _ _ _ _ variable_round_trip);
          by rewrite Forall_map in Hn].
      destruct error; vm_compute; reflexivity.
  - destruct e as [reason threadId [d|] [a|] | threadId [a|]];
      cbn [Message_numbers]; intros [Hn _]%Forall_cons;
      one_number threadId Hn.
Qed.

End RoundTrip.

(** C9 as stated fails at a number JSON text cannot carry: a
    debuggerContinued event whose threadId is [Infinity] passes the
    schema, is written with [null] for the threadId, and is rejected when
    parsed back. *)
Lemma infinite_threadId_does_not_round_trip :
  let m := MEvent (DebuggerContinuedEvent (S754_infinity false) None) in
  messageSchema (Message_object m) = Some m
  /\ JSON_stringify (Message_object m)
     = Doc (JObject [("type", JString "event");
                     ("event", JString "debuggerContinued");
                     ("threadId", JNull)])
  /\ decode (JSON_stringify (Message_object m)) = None.
Proof. repeat split. Qed.

(** The negative zero comes back as zero: the message parses, with the
    sign of the threadId gone. *)
Lemma negative_zero_loses_its_sign :
  decode (JSON_stringify
            (Message_object
               (MEvent (DebuggerContinuedEvent (S754_zero true) None))))
  = Some (MEvent (DebuggerContinuedEvent (S754_zero false) None)).
Proof. reflexivity. Qed.

(** C9 (amended) at a stack-trace response with one frame. *)
Lemma message_round_trip_witness :
  let m :=
    MResponse
      (GetStackTraceResponse true
         (Some [{| frame_id := of_Z 0; frame_name := "main";
                   frame_source :=
                     Some {| source_name := None;
                             source_path := Some "/src/main.c" |};
                   frame_line := of_Z 42; frame_column := of_Z 5 |}])
         None "r7") in
  decode (JSON_stringify (Message_object m)) = Some m.
Proof.
  intros m. apply (message_round_trip m).
  repeat constructor.
Defined.

(** ** Connecting to the extension *)

Section Connecting.

Implicit Types (world : nat -> attempt) (st : DebuggerState).

(** The call always ends: the fuel it is given outlasts the retry budget. *)
Lemma connect_ends fuel world retryCount attempts waited st :
  maxRetries - retryCount < fuel ->
  is_Some (connect fuel world retryCount attempts waited st).
Proof.
  revert retryCount attempts waited.
  induction fuel as [|fuel IH]; intros retryCount attempts waited Hfuel;
    [lia|].
  cbn [connect]. destruct (decide (maxRetries <= retryCount)); [done|].
  destruct (world attempts) as [error|after|after error|].
  - destruct (decide (S retryCount < maxRetries)); [|done]. apply IH. lia.
  - by destruct (decide _).
  - by destruct (decide _).
  - done.
Qed.

Lemma connectToExtension_ends world port st :
  is_Some (connectToExtension world port st).
Proof. apply connect_ends. unfold maxRetries. lia. Qed.

(** A connection that is made leaves the retry counter at zero. *)
Lemma connect_resets_counter fuel world (count : nat) made delay st c :
  connect fuel world count made delay st = Some c ->
  outcome c = inr tt ->
  retryCount c = 0 /\ connectionStatus (state c) = connected.
Proof.
  revert count made delay.
  induction fuel as [|fuel IH]; intros n made delay; [done|].
  cbn [connect]. destruct (decide (maxRetries <= n)).
  { by intros [= <-]. }
  destruct (world made) as [error|after|after error|].
  - destruct (decide (S n < maxRetries)); [apply IH|by intros [= <-]].
  - destruct (decide _); by intros [= <-].
  - destruct (decide _); by intros [= <-].
  - by intros [= <-].
Qed.

(** What the [catch] block does see is retried within the budget: when the
    constructor throws every time, five sockets are tried, 2 seconds
    apart, and the last error is the result. *)
Lemma constructor_errors_are_retried error port st :
  connectToExtension (fun _ => Throws error) port st
  = Some {| outcome := inl error; attempts := 5; waited := 8000;
            retryCount := 5;
            state := set_connection connecting (Some port) st |}.
Proof. reflexivity. Qed.

(** C4, where the code departs from it. A connection attempt that fails
    (the socket reports an error, or the 5 second timeout fires) is not
    retried: the call ends after that one attempt, with no inter-attempt
    delay, rejected with the error, although the second or third attempt
    would have gone through. *)
Theorem failed_attempt_is_not_retried (error : thrown) (port : number) st :
  let refused := fun n => match n with
                          | 0 | 1 => Fails 1 error
                          | _ => Opens 1
                          end in
  let hanging := fun n => match n with 0 => Silent | _ => Opens 1 end in
  let gave_up := set_connection disconnected None st in
  connectToExtension refused port st
  = Some {| outcome := inl error; attempts := 1; waited := 0;
            retryCount := 0; state := gave_up |}
  /\ connectToExtension hanging port st
     = Some {| outcome := inl (ErrorObject "Connection timeout");
               attempts := 1; waited := 0; retryCount := 0;
               state := gave_up |}.
Proof. split; reflexivity. Qed.

End Connecting.

(** ** The request correlator *)

Section Correlator.

Implicit Types (s : Server) (p q : nat) (id : string) (t : Timer)
  (due : list (nat * Timer)).

(** *** The calls of [resolve]/[reject] *)

Lemma settled_settle p q how s :
  settled p (settle q how s)
  = if decide (q = p) then (clock s, how) :: settled p s else settled p s.
Proof. unfold settled. cbn. by destruct (decide (q = p)). Qed.

Lemma settled_same_settlements p s s' :
  settlements s' = settlements s -> settled p s' = settled p s.
Proof. unfold settled. by intros ->. Qed.

(** *** Timers that fire *)

Lemma fire_all_cons p t due s :
  fire_all ((p, t) :: due) s = fire_all due (timeout_fires p t s).
Proof. reflexivity. Qed.

Lemma fire_all_timers due s : timers (fire_all due s) = timers s.
Proof.
  revert s. induction due as [|[p t] due IH]; intros s; [done|].
  by rewrite fire_all_cons, IH.
Qed.

Lemma fire_all_promises due s : promises (fire_all due s) = promises s.
Proof.
  revert s. induction due as [|[p t] due IH]; intros s; [done|].
  by rewrite fire_all_cons, IH.
Qed.

(** A handler outlives the timers that fire when none of them has its id. *)
Lemma fire_all_handlers due s id :
  responseHandlers (fire_all due s) !! id
  = if decide (id ∈ timer_id <$> due.*2) then None
    else responseHandlers s !! id.
Proof.
  revert s. induction due as [|[p t] due IH]; intros s.
  - cbn. rewrite decide_False; [done|]. apply not_elem_of_nil.
  - rewrite fire_all_cons, IH. cbn.
    destruct (decide (id ∈ timer_id <$> due.*2)) as [Hin|Hout].
    + rewrite decide_True; [done|]. by apply list_elem_of_further.
    + destruct (decide (id = timer_id t)) as [->|Hne].
      * rewrite decide_True by apply list_elem_of_here.
        apply lookup_delete_eq.
      * rewrite decide_False; [by rewrite lookup_delete_ne|].
        intros [?|?]%elem_of_cons; done.
Qed.

Lemma settled_timeout_fires p q t s :
  settled p (timeout_fires q t s)
  = if decide (q = p)
    then (deadline t, Rejected (ErrorObject "Request timeout")) :: settled p s
    else settled p s.
Proof. unfold timeout_fires. by rewrite settled_settle. Qed.

(** A promise none of the timers belongs to is not settled by them. *)
Lemma fire_all_settled_other due s p :
  p ∉ due.*1 -> settled p (fire_all due s) = settled p s.
Proof.
  revert s. induction due as [|[q t] due IH]; intros s Hp; [done|].
  apply not_elem_of_cons in Hp as [Hne Hp].
  rewrite fire_all_cons, IH, settled_timeout_fires by done.
  by rewrite decide_False.
Qed.

(** The promise of a timer that fires is rejected, at the time the timer
    was set for. *)
Lemma fire_all_settled due s p t :
  NoDup due.*1 -> (p, t) ∈ due ->
  settled p (fire_all due s)
  = (deadline t, Rejected (ErrorObject "Request timeout")) :: settled p s.
Proof.
  revert s. induction due as [|[q t'] due IH]; intros s Hnodup Hin.
  { by apply elem_of_nil in Hin. }
  apply NoDup_cons in Hnodup as [Hq Hnodup]. rewrite fire_all_cons.
  apply elem_of_cons in Hin as [[= <- <-]|Hin].
  - rewrite fire_all_settled_other, settled_timeout_fires by done.
    by rewrite decide_True.
  - rewrite IH, settled_timeout_fires by done.
    rewrite decide_False; [done|]. intros ->. apply Hq.
    apply list_elem_of_fmap. by exists (p, t).
Qed.


(** *** The invariant *)

Lemma timer_unique (l : list (nat * Timer)) p t t' :
  NoDup l.*1 -> (p, t) ∈ l -> (p, t') ∈ l -> t = t'.
Proof.
  induction l as [|[q u] l IH]; intros Hnodup Ht Ht'.
  { by apply elem_of_nil in Ht. }
  apply NoDup_cons in Hnodup as [Hq Hnodup].
  assert (forall v, (q, v) ∈ l -> False) as Hfresh.
  { intros v Hv. apply Hq, list_elem_of_fmap. by exists (q, v). }
  apply elem_of_cons in Ht as [Ht|Ht];
    apply elem_of_cons in Ht' as [Ht'|Ht']; simplify_eq; try done.
  - by destruct (Hfresh t').
  - by destruct (Hfresh t).
  - by apply IH.
Qed.

Lemma timer_keys_filter (P : nat * Timer -> Prop) `{!forall x, Decision (P x)}
    (l : list (nat * Timer)) :
  NoDup l.*1 -> NoDup (filter P l).*1.
Proof.
  intros Hnodup. eapply sublist_NoDup; [exact Hnodup|].
  apply fmap_sublist, sublist_filter.
Qed.

Lemma timer_key_elem (l : list (nat * Timer)) p :
  p ∈ l.*1 <-> exists t, (p, t) ∈ l.
Proof.
  rewrite list_elem_of_fmap. split.
  - intros ([q t] & -> & Hin). by exists t.
  - intros [t Hin]. by exists (p, t).
Qed.

Lemma invariant_initial : invariant initial.
Proof.
  split; cbn.
  - intros id p. by rewrite lookup_empty.
  - constructor.
  - intros p t Hin. by apply elem_of_nil in Hin.
  - lia.
  - done.
Qed.

(** [sendRequest] registers its promise, or refuses. *)
Lemma sendRequest_cases l random request s :
  sendRequest l random request s = register random request s
  \/ exists error, sendRequest l random request s = refuse error s.
Proof. destruct l; cbn [sendRequest]; eauto. Qed.

Lemma invariant_sendRequest l random request s :
  invariant s -> invariant (sendRequest l random request s).
Proof.
  intros [Hh Hn Hp Hs Hf].
  destruct (sendRequest_cases l random request s) as [->|[error ->]]; split;
    cbn [register refuse responseHandlers timers promises clock].
  - intros id p. destruct (decide (random = id)) as [->|Hne].
    + rewrite lookup_insert_eq. intros [= <-]. eexists.
      split; [apply elem_of_app; right; apply list_elem_of_here|done].
    + rewrite lookup_insert_ne by done. intros (t & Hin & Hid)%Hh.
      exists t. split; [|done]. apply elem_of_app. by left.
  - rewrite fmap_app. apply NoDup_app. split; [done|]. split.
    + intros p (t & Hin)%timer_key_elem [->|Hnil%elem_of_nil]%elem_of_cons;
        [|done].
      destruct (Hp _ _ Hin) as [Hlt _]. cbn in Hlt. lia.
    + apply NoDup_singleton.
  - intros p t [Hin|[= -> ->]%list_elem_of_singleton]%elem_of_app.
    + destruct (Hp p t Hin) as (Hlt & Hnone & Htime). split; [lia|].
      split; [|done]. by rewrite (settled_same_settlements p s).
    + split; [lia|]. split.
      * rewrite (settled_same_settlements _ s) by done. by apply Hf.
      * cbn. unfold request_timeout. lia.
  - intros p Hlt Hout. rewrite fmap_app in Hout.
    apply not_elem_of_app in Hout as [Hout Hnew].
    rewrite (settled_same_settlements p s) by done. apply Hs; [|done].
    assert (p <> promises s).
    { intros ->. apply Hnew, list_elem_of_here. }
    lia.
  - intros p Hle. rewrite (settled_same_settlements p s) by done.
    apply Hf. lia.
  - done.
  - done.
  - intros p t Hin. destruct (Hp p t Hin) as (Hlt & Hnone & Htime).
    split; [lia|]. split; [|done].
    unfold settled. cbn. rewrite decide_False by lia. exact Hnone.
  - intros p Hlt Hout. unfold settled. cbn.
    destruct (decide (promises s = p)) as [<-|Hne].
    + fold (settled (promises s) s). by rewrite Hf.
    + apply Hs; [lia|done].
  - intros p Hle. unfold settled. cbn. rewrite decide_False by lia.
    apply Hf. lia.
Qed.


Lemma handler_settles p r s :
  handler p r s = settle p (response_settlement r) (clearTimeout p s).
Proof. unfold handler, response_settlement. by destruct (response_success r). Qed.

(** What a frame does to the correlator: nothing, or an event reaches the
    cache, or a response reaches the handler registered under its id. *)
Lemma onmessage_cases data s :
  onmessage data s = s
  \/ (exists event,
        decode data = Some (MEvent event)
        /\ onmessage data s
           = set_debuggerState (handleEvent event (debuggerState s)) s)
  \/ (exists r p,
        decode data = Some (MResponse r)
        /\ responseHandlers s !! response_id r = Some p
        /\ onmessage data s
           = delete_handler (response_id r)
               (settle p (response_settlement r) (clearTimeout p s))).
Proof.
  unfold onmessage, decode. destruct (JSON_parse data) as [|message]; [by left|].
  destruct (messageSchema message) as [[request|r|event]|]; [by left| |..].
  - destruct (responseHandlers s !! response_id r) as [p|] eqn:Hp; [|by left].
    right. right. exists r, p. by rewrite handler_settles.
  - right. left. by exists event.
  - by left.
Qed.

Lemma invariant_set_debuggerState st s :
  invariant s -> invariant (set_debuggerState st s).
Proof. intros [Hh Hn Hp Hs Hf]. by split. Qed.

(** A response handed to the handler of promise [p0], registered under
    [id0]. *)
Lemma invariant_response id0 p0 how s :
  invariant s -> responseHandlers s !! id0 = Some p0 ->
  invariant (delete_handler id0 (settle p0 how (clearTimeout p0 s))).
Proof.
  intros [Hh Hn Hp Hs Hf] Hlookup.
  destruct (Hh _ _ Hlookup) as (t0 & Ht0 & Hid0).
  destruct (Hp _ _ Ht0) as (Hlt0 & Hnone0 & _).
  split; cbn [delete_handler settle clearTimeout responseHandlers timers
              promises clock].
  - intros id p. destruct (decide (id0 = id)) as [->|Hne].
    { by rewrite lookup_delete_eq. }
    rewrite lookup_delete_ne by done. intros Hid.
    destruct (Hh _ _ Hid) as (t & Ht & Htid). exists t. split; [|done].
    apply list_elem_of_filter. split; [|done]. cbn. intros ->.
    rewrite (timer_unique _ _ _ _ Hn Ht Ht0) in Htid. congruence.
  - by apply timer_keys_filter.
  - intros p t [Hne Hin]%list_elem_of_filter. cbn in Hne.
    destruct (Hp _ _ Hin) as (Hlt & Hnone & Htime).
    split; [done|]. split; [|done].
    unfold settled. cbn. by rewrite decide_False.
  - intros p Hlt Hout. unfold settled. cbn.
    destruct (decide (p0 = p)) as [<-|Hne].
    + fold (settled p0 s). by rewrite Hnone0.
    + apply Hs; [done|]. intros (t & Hin)%timer_key_elem. apply Hout.
      apply timer_key_elem. exists t. apply list_elem_of_filter.
      split; [|done]. cbn. congruence.
  - intros p Hle. unfold settled. cbn. rewrite decide_False by lia.
    by apply Hf.
Qed.

Lemma invariant_onmessage data s :
  invariant s -> invariant (onmessage data s).
Proof.
  intros Hinv.
  destruct (onmessage_cases data s)
    as [->|[(event & _ & ->)|(r & p & _ & Hp & ->)]].
  - done.
  - by apply invariant_set_debuggerState.
  - by apply invariant_response.
Qed.


(** The timers of a state, split at a time: those that are due by then and
    those that are not. *)
Lemma due_or_not now s p t :
  (p, t) ∈ timers s ->
  (p, t) ∈ filter (fun kt => (deadline kt.2 <= now)%N) (timers s)
  \/ (p, t) ∈ filter (fun kt => ~ (deadline kt.2 <= now)%N) (timers s).
Proof.
  intros Hin. rewrite !list_elem_of_filter. cbn.
  destruct (decide (deadline t <= now)%N); auto.
Qed.

Lemma elapse_handlers ms s id :
  responseHandlers (elapse ms s) !! id
  = if decide (id ∈ timer_id <$>
                 (filter (fun kt => (deadline kt.2 <= clock s + ms)%N)
                    (timers s)).*2)
    then None else responseHandlers s !! id.
Proof.
  unfold elapse. cbn [set_clock responseHandlers].
  by rewrite fire_all_handlers.
Qed.

Lemma elapse_timers ms s :
  timers (elapse ms s)
  = filter (fun kt => ~ (deadline kt.2 <= clock s + ms)%N) (timers s).
Proof. unfold elapse. cbn [set_clock timers]. by rewrite fire_all_timers. Qed.

Lemma elapse_promises ms s : promises (elapse ms s) = promises s.
Proof. unfold elapse. cbn [set_clock promises]. by rewrite fire_all_promises. Qed.

Lemma elapse_clock ms s : clock (elapse ms s) = (clock s + ms)%N.
Proof. reflexivity. Qed.

(** A promise whose timer comes due is rejected at the time the timer was
    set for; the others are not settled while time passes. *)
Lemma elapse_settled_due ms s p t :
  NoDup (timers s).*1 -> (p, t) ∈ timers s ->
  (deadline t <= clock s + ms)%N ->
  settled p (elapse ms s)
  = (deadline t, Rejected (ErrorObject "Request timeout")) :: settled p s.
Proof.
  intros Hn Hin Hdue. unfold elapse.
  rewrite (settled_same_settlements p
             (fire_all (filter (fun kt => (deadline kt.2 <= clock s + ms)%N)
                          (timers s))
                (set_timers
                   (filter (fun kt => ~ (deadline kt.2 <= clock s + ms)%N)
                      (timers s)) s))) by done.
  rewrite (fire_all_settled _ _ p t).
  - done.
  - by apply timer_keys_filter.
  - by apply list_elem_of_filter.
Qed.

Lemma elapse_settled_other ms s p :
  (forall t, (p, t) ∈ timers s -> ~ (deadline t <= clock s + ms)%N) ->
  settled p (elapse ms s) = settled p s.
Proof.
  intros Hnot. unfold elapse.
  rewrite (settled_same_settlements p
             (fire_all (filter (fun kt => (deadline kt.2 <= clock s + ms)%N)
                          (timers s))
                (set_timers
                   (filter (fun kt => ~ (deadline kt.2 <= clock s + ms)%N)
                      (timers s)) s))) by done.
  rewrite fire_all_settled_other; [done|].
  intros (t & [Hdue Hin]%list_elem_of_filter)%timer_key_elem.
  by apply (Hnot t).
Qed.

Lemma invariant_elapse ms s : invariant s -> invariant (elapse ms s).
Proof.
  intros [Hh Hn Hp Hs Hf]. split.
  - intros id p. rewrite elapse_handlers, elapse_timers.
    destruct (decide _) as [|Hout]; [done|]. intros Hid.
    destruct (Hh _ _ Hid) as (t & Ht & Htid). exists t. split; [|done].
    destruct (due_or_not (clock s + ms) s p t Ht) as [Hdue|Hrest]; [|done].
    destruct Hout. rewrite <- Htid.
    apply list_elem_of_fmap. exists t. split; [done|].
    apply list_elem_of_fmap. by exists (p, t).
  - rewrite elapse_timers. by apply timer_keys_filter.
  - intros p t. rewrite elapse_timers, elapse_promises, elapse_clock.
    intros [Hlate Hin]%list_elem_of_filter. cbn in Hlate.
    destruct (Hp _ _ Hin) as (Hlt & Hnone & Htime).
    split; [done|]. split; [|lia].
    rewrite elapse_settled_other; [done|]. intros t' Hin'.
    by rewrite <- (timer_unique _ _ _ _ Hn Hin Hin').
  - intros p. rewrite elapse_timers, elapse_promises. intros Hlt Hout.
    destruct (decide (p ∈ (timers s).*1)) as [(t & Hin)%timer_key_elem|Hnone].
    + destruct (Hp _ _ Hin) as (_ & Hnone & _).
      destruct (decide (deadline t <= clock s + ms)%N) as [Hdue|Hlate].
      * by rewrite (elapse_settled_due ms s p t), Hnone.
      * destruct Hout. apply timer_key_elem. exists t.
        by apply list_elem_of_filter.
    + rewrite elapse_settled_other; [by apply Hs|].
      intros t Hin. destruct Hnone. apply timer_key_elem. by exists t.
  - intros p. rewrite elapse_promises. intros Hle.
    rewrite elapse_settled_other; [by apply Hf|].
    intros t Hin. destruct (Hp _ _ Hin) as (Hlt & _). lia.
Qed.

Lemma invariant_step s i : invariant s -> invariant (step s i).
Proof.
  destruct i as [l random request|data|ms]; cbn [step].
  - apply invariant_sendRequest.
  - apply invariant_onmessage.
  - apply invariant_elapse.
Qed.

Lemma invariant_run inputs s : invariant s -> invariant (run inputs s).
Proof.
  revert s. induction inputs as [|i inputs IH]; intros s Hs; [done|].
  apply IH, invariant_step, Hs.
Qed.

Lemma run_app inputs inputs' s :
  run (inputs ++ inputs') s = run inputs' (run inputs s).
Proof. apply foldl_app. Qed.

Lemma reachable_invariant inputs : invariant (run inputs initial).
Proof. apply invariant_run, invariant_initial. Qed.


(** *** Time and the promises made *)

Lemma clock_step s i :
  clock (step s i)
  = (clock s + match i with Elapse ms => ms | _ => 0 end)%N.
Proof.
  destruct i as [l random request|data|ms]; cbn [step];
    [destruct (sendRequest_cases l random request s) as [->|[error ->]]| |].
  - cbn. lia.
  - cbn. lia.
  - destruct (onmessage_cases data s)
      as [->|[(event & _ & ->)|(r & p & _ & _ & ->)]]; cbn; lia.
  - apply elapse_clock.
Qed.

Lemma elapsed_cons i inputs :
  elapsed (i :: inputs)
  = (match i with Elapse ms => ms | _ => 0 end + elapsed inputs)%N.
Proof. by destruct i. Qed.

Lemma clock_run inputs s :
  clock (run inputs s) = (clock s + elapsed inputs)%N.
Proof.
  revert s. induction inputs as [|i inputs IH]; intros s.
  - cbn. lia.
  - cbn [run foldl]. fold (run inputs (step s i)).
    rewrite IH, clock_step, elapsed_cons. lia.
Qed.

Lemma promises_step s i : promises s <= promises (step s i).
Proof.
  destruct i as [l random request|data|ms]; cbn [step];
    [destruct (sendRequest_cases l random request s) as [->|[error ->]]| |].
  - cbn. lia.
  - cbn. lia.
  - destruct (onmessage_cases data s)
      as [->|[(event & _ & ->)|(r & p & _ & _ & ->)]]; cbn; lia.
  - by rewrite elapse_promises.
Qed.

Lemma promises_run inputs s : promises s <= promises (run inputs s).
Proof.
  revert s. induction inputs as [|i inputs IH]; intros s; [done|].
  cbn [run foldl]. fold (run inputs (step s i)).
  etransitivity; [apply (promises_step s i)|apply IH].
Qed.

(** A timer in hand after a step was there before, unless the step made the
    promise. *)
Lemma timers_step s i p t :
  (p, t) ∈ timers (step s i) -> (p, t) ∈ timers s \/ p = promises s.
Proof.
  destruct i as [l random request|data|ms]; cbn [step];
    [destruct (sendRequest_cases l random request s) as [->|[error ->]]| |].
  - cbn. intros [Hin|[= -> _]%list_elem_of_singleton]%elem_of_app; auto.
  - cbn. auto.
  - destruct (onmessage_cases data s)
      as [->|[(event & _ & ->)|(r & q & _ & _ & ->)]]; cbn; auto.
    intros [_ Hin]%list_elem_of_filter. auto.
  - rewrite elapse_timers. intros [_ Hin]%list_elem_of_filter. auto.
Qed.

Lemma timers_run inputs s p t :
  p < promises s -> (p, t) ∈ timers (run inputs s) -> (p, t) ∈ timers s.
Proof.
  revert s. induction inputs as [|i inputs IH]; intros s Hlt Hin; [done|].
  cbn [run foldl] in Hin. fold (run inputs (step s i)) in Hin.
  apply IH in Hin; [|pose proof (promises_step s i); lia].
  apply timers_step in Hin as [Hin| ->]; [done|lia].
Qed.

(** *** A promise, once settled, stays as it is *)

Lemma settled_stable_step s i p :
  invariant s -> p < promises s -> p ∉ (timers s).*1 ->
  settled p (step s i) = settled p s /\ p ∉ (timers (step s i)).*1.
Proof.
  intros Hinv Hlt Hout.
  assert (forall t, (p, t) ∈ timers s -> False) as Hnone.
  { intros t Hin. apply Hout, timer_key_elem. by exists t. }
  destruct i as [l random request|data|ms]; cbn [step];
    [destruct (sendRequest_cases l random request s) as [->|[error ->]]| |].
  - split; [done|]. cbn. rewrite fmap_app.
    intros [Hin|Hin%list_elem_of_singleton]%elem_of_app; [done|].
    cbn in Hin. lia.
  - split; [|done]. unfold settled. cbn. rewrite decide_False by lia. done.
  - destruct (onmessage_cases data s)
      as [->|[(event & _ & ->)|(r & q & _ & Hq & ->)]]; [done|done|].
    destruct (inv_handlers s Hinv _ _ Hq) as (t & Hin & _).
    split.
    + unfold settled. cbn. rewrite decide_False; [done|].
      intros ->. by apply (Hnone t).
    + cbn. intros (t' & [_ Hin']%list_elem_of_filter)%timer_key_elem.
      by apply (Hnone t').
  - split.
    + apply elapse_settled_other. intros t Hin. by destruct (Hnone t).
    + rewrite elapse_timers.
      intros (t' & [_ Hin']%list_elem_of_filter)%timer_key_elem.
      by apply (Hnone t').
Qed.

Lemma settled_stable_run inputs s p :
  invariant s -> p < promises s -> p ∉ (timers s).*1 ->
  settled p (run inputs s) = settled p s.
Proof.
  revert s. induction inputs as [|i inputs IH]; intros s Hinv Hlt Hout; [done|].
  cbn [run foldl]. fold (run inputs (step s i)).
  destruct (settled_stable_step s i p Hinv Hlt Hout) as [<- Hout'].
  apply IH; [by apply invariant_step| |done].
  pose proof (promises_step s i). lia.
Qed.

(** *** A request that is not answered *)

(** One step with the timer of promise [p] in hand: the timer is still
    there, or the step is the passing of time that makes it fire. *)
Lemma pending_step s i p t :
  invariant s -> (p, t) ∈ timers s -> ~ answers (timer_id t) i ->
  (p, t) ∈ timers (step s i)
  \/ ((deadline t <= clock (step s i))%N
      /\ settled p (step s i)
         = [(deadline t, Rejected (ErrorObject "Request timeout"))]
      /\ (p ∉ (timers (step s i)).*1)
      /\ responseHandlers (step s i) !! timer_id t = None).
Proof.
  intros Hinv Hin Hquiet.
  destruct i as [l random request|data|ms]; cbn [step];
    [destruct (sendRequest_cases l random request s) as [->|[error ->]]| |].
  - left. cbn. apply elem_of_app. by left.
  - by left.
  - left. destruct (onmessage_cases data s)
      as [->|[(event & _ & ->)|(r & q & Hr & Hq & ->)]]; [done|done|].
    cbn. apply list_elem_of_filter. split; [|done]. cbn. intros ->.
    destruct (inv_handlers s Hinv _ _ Hq) as (t' & Hin' & Hid).
    rewrite (timer_unique _ _ _ _ (inv_timers s Hinv) Hin' Hin) in Hid.
    apply Hquiet. cbn. by rewrite Hr.
  - destruct (decide (deadline t <= clock s + ms)%N) as [Hdue|Hlate].
    + right. split; [by rewrite elapse_clock|].
      destruct (inv_pending s Hinv _ _ Hin) as (_ & Hnone & _).
      split; [|split].
      * rewrite (elapse_settled_due ms s p t), ?Hnone; try done.
        apply (inv_timers s Hinv).
      * rewrite elapse_timers.
        intros (t' & [Hlate Hin']%list_elem_of_filter)%timer_key_elem.
        rewrite (timer_unique _ _ _ _ (inv_timers s Hinv) Hin' Hin) in Hlate.
        by apply Hlate.
      * rewrite elapse_handlers, decide_True; [done|].
        apply list_elem_of_fmap. exists t. split; [done|].
        apply list_elem_of_fmap. exists (p, t). split; [done|].
        by apply list_elem_of_filter.
    + left. rewrite elapse_timers. by apply list_elem_of_filter.
Qed.

Lemma pending_run inputs s p t :
  invariant s -> (p, t) ∈ timers s ->
  Forall (fun i => ~ answers (timer_id t) i) inputs ->
  ((clock (run inputs s) < deadline t)%N /\ (p, t) ∈ timers (run inputs s))
  \/ ((deadline t <= clock (run inputs s))%N
      /\ settled p (run inputs s)
         = [(deadline t, Rejected (ErrorObject "Request timeout"))]).
Proof.
  revert s. induction inputs as [|i inputs IH]; intros s Hinv Hin Hquiet.
  - left. split; [|done]. apply (inv_pending s Hinv _ _ Hin).
  - apply Forall_cons in Hquiet as [Hi Hquiet].
    cbn [run foldl]. fold (run inputs (step s i)).
    pose proof (invariant_step s i Hinv) as Hinv'.
    destruct (pending_step s i p t Hinv Hin Hi)
      as [Hin'|(Hdue & Hsettled & Hout & _)].
    + by apply IH.
    + right. split.
      * rewrite clock_run. lia.
      * rewrite settled_stable_run; try done.
        destruct (inv_pending s Hinv _ _ Hin) as (Hlt & _).
        pose proof (promises_step s i). lia.
Qed.


(** C1. Whatever the correlator goes through (requests sent, frames
    received, duplicates and late ones among them, time passing), the
    continuation of a request issued through [sendRequest] is resolved or
    rejected at most once at any time, and exactly once as soon as the
    30 second window has passed since; a response delivered to a live entry
    of the pending table settles that request and removes the entry, and a
    response whose id has no live entry leaves everything as it was. *)
Theorem request_settled_exactly_once (pre post : list input) (p : nat) :
  p < promises (run pre initial) ->
  let s := run (pre ++ post) initial in
  length (settled p s) <= 1
  /\ ((request_timeout <= elapsed post)%N -> length (settled p s) = 1)
  /\ (forall data r,
        decode data = Some (MResponse r) ->
        match responseHandlers s !! response_id r with
        | Some q =>
            settled q s = []
            /\ settlements (onmessage data s)
               = (q, clock s, response_settlement r) :: settlements s
            /\ responseHandlers (onmessage data s) !! response_id r = None
        | None => onmessage data s = s
        end).
Proof.
  intros Hp s. subst s. rewrite run_app.
  set (s0 := run pre initial) in *. set (s := run post s0).
  assert (invariant s0) as Hinv0 by apply reachable_invariant.
  assert (invariant s) as Hinv by by apply invariant_run.
  assert (p < promises s) as Hlt.
  { pose proof (promises_run post s0). fold s in H. lia. }
  split; [|split].
  - destruct (decide (p ∈ (timers s).*1)) as [(t & Hin)%timer_key_elem|Hout].
    + destruct (inv_pending s Hinv _ _ Hin) as (_ & -> & _). cbn. lia.
    + by rewrite (inv_settled s Hinv p).
  - intros Hwindow. apply (inv_settled s Hinv p Hlt).
    intros (t & Hin)%timer_key_elem.
    destruct (inv_pending s Hinv _ _ Hin) as (_ & _ & Hnow & _).
    apply timers_run in Hin; [|done].
    destruct (inv_pending s0 Hinv0 _ _ Hin) as (_ & _ & _ & Hdeadline).
    unfold s in Hnow. rewrite clock_run in Hnow. lia.
  - intros data r Hr. unfold onmessage. unfold decode in Hr.
    destruct (JSON_parse data) as [|message]; [done|]. rewrite Hr.
    destruct (responseHandlers s !! response_id r) as [q|] eqn:Hq; [|done].
    destruct (inv_handlers s Hinv _ _ Hq) as (t & Hin & _).
    destruct (inv_pending s Hinv _ _ Hin) as (_ & Hnone & _).
    rewrite handler_settles. split; [done|]. split; [done|].
    cbn. apply lookup_delete_eq.
Qed.

(** C3. A request to whose id no response comes is not settled before
    30 seconds have passed since it was sent, and from then on it is
    rejected, once, with "Request timeout", the rejection dated exactly
    30000 ms after the request; and the passing of time that makes the
    timeout fire leaves no entry for the id in the pending table. *)
Theorem unanswered_request_times_out
    (pre evs : list input) (id : string) (request : list (string * jsvalue)) :
  let s0 := run pre initial in
  let p := promises s0 in
  let s1 := sendRequest Ready id request s0 in
  Forall (fun i => ~ answers id i) evs ->
  ((elapsed evs < request_timeout)%N -> settled p (run evs s1) = [])
  /\ ((request_timeout <= elapsed evs)%N ->
      settled p (run evs s1)
      = [((clock s0 + request_timeout)%N,
          Rejected (ErrorObject "Request timeout"))])
  /\ (forall ms,
        (elapsed evs < request_timeout <= elapsed evs + ms)%N ->
        responseHandlers (run (evs ++ [Elapse ms]) s1) !! id = None).
Proof.
  intros s0 p s1 Hquiet.
  set (t := {| deadline := (clock s0 + request_timeout)%N; timer_id := id |}).
  assert (invariant s1) as Hinv1
    by apply invariant_sendRequest, reachable_invariant.
  assert ((p, t) ∈ timers s1) as Hin1.
  { cbn. apply elem_of_app. right. apply list_elem_of_here. }
  assert (clock (run evs s1) = (clock s0 + elapsed evs)%N) as Hclock
    by by rewrite clock_run.
  pose proof (invariant_run evs s1 Hinv1) as Hinv.
  destruct (pending_run evs s1 p t Hinv1 Hin1 Hquiet)
    as [[Hearly Hin]|[Hlate Hsettled]];
    rewrite Hclock in *; cbn [deadline t] in *.
  - split; [|split].
    + intros _. apply (inv_pending _ Hinv _ _ Hin).
    + lia.
    + intros ms Hms. rewrite run_app. cbn [run foldl step].
      rewrite elapse_handlers, decide_True; [done|].
      apply list_elem_of_fmap. exists t. split; [done|].
      apply list_elem_of_fmap. exists (p, t). split; [done|].
      apply list_elem_of_filter. split; [|done].
      unfold t. cbn [snd deadline]. rewrite Hclock. lia.
  - split; [|split]; [lia|done|lia].
Qed.

End Correlator.

(** C1 at a request that is answered twice, the second response late. *)
Lemma request_settled_exactly_once_witness :
  let request := [("type", JString "request");
                  ("command", JString "executeLldbCommand");
                  ("lldb_command", JString "bt")] in
  let response :=
    Receive (JSON_stringify
               (Response_object
                  (ExecuteLldbCommandResponse true (Some "frame #0") None
                     "k3x9"))) in
  let pre := [Send Ready "k3x9" request] in
  let post := [Elapse 10; response; Elapse 29990; response] in
  0 < promises (run pre initial)
  /\ (request_timeout <= elapsed post)%N
  /\ length (settled 0 (run (pre ++ post) initial)) = 1.
Proof.
  intros request response pre post.
  assert (0 < promises (run pre initial)) as Hissued by (cbn; lia).
  assert (request_timeout <= elapsed post)%N as Hwindow by by vm_compute.
  split; [exact Hissued|]. split; [exact Hwindow|].
  exact (proj1 (proj2 (request_settled_exactly_once pre post 0 Hissued))
           Hwindow).
Defined.

(** C3 at a request that only sees the response to another one. *)
Lemma unanswered_request_times_out_witness :
  let request := [("type", JString "request");
                  ("command", JString "executeLldbCommand");
                  ("lldb_command", JString "bt")] in
  let other :=
    Receive (JSON_stringify
               (Response_object
                  (ExecuteLldbCommandResponse true (Some "frame #0") None
                     "q7w1"))) in
  let evs := [Elapse 12000; other; Elapse 18000] in
  Forall (fun i => ~ answers "k3x9" i) evs
  /\ settled 0 (run evs (sendRequest Ready "k3x9" request initial))
     = [(30000%N, Rejected (ErrorObject "Request timeout"))].
Proof.
  intros request other evs.
  assert (Forall (fun i => ~ answers "k3x9" i) evs) as Hquiet.
  { repeat constructor; cbn; try tauto. discriminate. }
  split; [exact Hquiet|].
  refine (proj1 (proj2 (unanswered_request_times_out [] evs "k3x9" request
                          Hquiet)) _).
  by vm_compute.
Defined.

(** ** More on the message schemas *)

Section Schema.

Implicit Types (v : jsvalue) (props : list (string * jsvalue)).

Local Abbreviation valid := (fun n : number => isNaN n = false).

(** *** What a schema that accepts says of the value *)

Lemma z_literal_Some lit v u : z_literal lit v = Some u -> v = JString lit.
Proof. destruct v; cbn; try done. by destruct (decide _) as [->|]. Qed.

Lemma z_string_Some v s : z_string v = Some s -> v = JString s.
Proof. destruct v; cbn; congruence. Qed.

Lemma z_boolean_Some v b : z_boolean v = Some b -> v = JBool b.
Proof. destruct v; cbn; congruence. Qed.

Lemma z_number_Some v n :
  z_number v = Some n -> v = JNumber n /\ isNaN n = false.
Proof.
  destruct v as [| | |m| | |]; cbn; try done.
  destruct (isNaN m) eqn:E; [done|]. by intros [= <-].
Qed.

Lemma z_optional_Some {A} (inner : schema A) v o :
  z_optional inner v = Some o ->
  (v = JUndefined /\ o = None) \/ (exists a, o = Some a /\ inner v = Some a).
Proof.
  destruct v; cbn; [intros [= <-]; by left|..];
    destruct (inner _) eqn:E; cbn; intros [= <-]; right; eauto.
Qed.

(** The fields of a schema that accepted, read back from the hypotheses
    [simplify_option_eq] leaves. *)
Local Ltac fields :=
  repeat match goal with
    | H : z_literal _ _ = Some _ |- _ => apply z_literal_Some in H
    | H : z_string _ = Some _ |- _ => apply z_string_Some in H
    | H : z_boolean _ = Some _ |- _ => apply z_boolean_Some in H
    | H : z_number _ = Some _ |- _ => apply z_number_Some in H as [H ?]
    end.

(** The message schema accepts through exactly one of its eight object
    schemas. *)
Lemma messageSchema_cases v m :
  messageSchema v = Some m ->
  (exists r, m = MRequest r
     /\ (executeLldbCommandRequestSchema v = Some r
         \/ getStackTraceRequestSchema v = Some r
         \/ getVariablesRequestSchema v = Some r))
  \/ (exists r, m = MResponse r
        /\ (executeLldbCommandResponseSchema v = Some r
            \/ getStackTraceResponseSchema v = Some r
            \/ getVariablesResponseSchema v = Some r))
  \/ (exists e, m = MEvent e
        /\ (debuggerStoppedEventSchema v = Some e
            \/ debuggerContinuedEventSchema v = Some e)).
Proof.
  unfold messageSchema, requestSchema, responseSchema, eventSchema.
  cbn [z_union].
  destruct (executeLldbCommandRequestSchema v) eqn:E1;
    [intros [= <-]; left; eauto|].
  destruct (getStackTraceRequestSchema v) eqn:E2;
    [intros [= <-]; left; eauto|].
  destruct (getVariablesRequestSchema v) eqn:E3;
    [intros [= <-]; left; eauto|].
  cbn [fmap option_fmap option_map].
  destruct (executeLldbCommandResponseSchema v) eqn:E4;
    [intros [= <-]; right; left; eauto|].
  destruct (getStackTraceResponseSchema v) eqn:E5;
    [intros [= <-]; right; left; eauto|].
  destruct (getVariablesResponseSchema v) eqn:E6;
    [intros [= <-]; right; left; eauto|].
  cbn [fmap option_fmap option_map].
  destruct (debuggerStoppedEventSchema v) eqn:E7;
    [intros [= <-]; right; right; eauto|].
  destruct (debuggerContinuedEventSchema v) eqn:E8;
    [intros [= <-]; right; right; eauto|].
  done.
Qed.


(** One of the eight object schemas accepted [v]: [v] is an object, and
    the hypotheses tell its fields. *)
Local Ltac accepted H :=
  unfold executeLldbCommandRequestSchema, getStackTraceRequestSchema,
    getVariablesRequestSchema, executeLldbCommandResponseSchema,
    getStackTraceResponseSchema, getVariablesResponseSchema,
    debuggerStoppedEventSchema, debuggerContinuedEventSchema,
    stackFrameSchema, variableSchema, sourceSchema, z_object in H;
  match type of H with
  | match ?v with _ => _ end = _ => destruct v as [| | | | | |props]; try done
  end;
  simplify_option_eq; fields.

(** A scalar read off the typed object is the value under the same key in
    the object that was parsed. *)
Local Ltac same_field :=
  repeat match goal with
    | H : z_optional _ _ = Some ?o |- _ =>
        apply z_optional_Some in H as [[H ->]|(? & -> & H)]
    end;
  fields;
  let key := fresh "key" in
  let Hscalar := fresh "Hscalar" in
  intros key ? <- Hscalar; cbn in Hscalar |- *;
  repeat (case_decide; [subst key; first [congruence|done]|]);
  done.

(** A value the message schema accepts is an object, and every string,
    number and boolean of the typed message is the value the object holds
    under the same key: parsing coerces nothing and fills in nothing. *)
Theorem parsed_fields_come_from_the_value v m :
  messageSchema v = Some m ->
  exists props,
    v = JObject props
    /\ forall key x,
         own_prop key (Message_object m) = x -> scalar x = true ->
         props.[key] = x.
Proof.
  intros Hm.
  destruct (messageSchema_cases v m Hm)
    as [(r & -> & [H|[H|H]])|[(r & -> & [H|[H|H]])|(e & -> & [H|H])]];
    accepted H; exists props; (split; [reflexivity|]); same_field.
Qed.


(** *** What was parsed is valid *)

Lemma stackFrameSchema_numbers v f :
  stackFrameSchema v = Some f -> Forall valid (StackFrame_numbers f).
Proof. intros H. accepted H. by repeat constructor. Qed.

Lemma variableSchema_numbers v x :
  variableSchema v = Some x -> valid (variable_variablesReference x).
Proof. intros H. by accepted H. Qed.

Lemma z_array_numbers {A} (inner : schema A) (numbers : A -> list number) v l :
  (forall w a, inner w = Some a -> Forall valid (numbers a)) ->
  z_array inner v = Some l -> Forall valid (concat (map numbers l)).
Proof.
  intros Hinner. destruct v as [| | | | |items|]; try done. cbn.
  intros Hall%mapM_Some. induction Hall as [|w a items l Hw _ IH]; cbn.
  - constructor.
  - apply Forall_app. split; [by apply (Hinner w)|done].
Qed.

Lemma variables_numbers (l : list VariableEntry) :
  Forall valid (concat (map (fun x => [variable_variablesReference x]) l)) ->
  Forall valid (map variable_variablesReference l).
Proof.
  induction l as [|x l IH]; [constructor|]. cbn.
  intros [? ?]%Forall_cons. constructor; [done|]. by apply IH.
Qed.

Lemma parsed_numbers_are_numbers v m :
  messageSchema v = Some m -> Forall valid (Message_numbers m).
Proof.
  intros Hm.
  destruct (messageSchema_cases v m Hm)
    as [(r & -> & [H|[H|H]])|[(r & -> & [H|[H|H]])|(e & -> & [H|H])]];
    accepted H; cbn [Message_numbers]; try by repeat constructor.
  - match goal with
    | H : z_optional z_number _ = Some _ |- _ =>
        apply z_optional_Some in H as [[_ ->]|(n & -> & [_ H]%z_number_Some)]
    end; by repeat constructor.
  - match goal with
    | H : z_optional (z_array _) _ = Some _ |- _ =>
        apply z_optional_Some in H as [[_ ->]|(l & -> & H)];
          [constructor
          |apply (z_array_numbers _ _ _ _ stackFrameSchema_numbers H)]
    end.
  - match goal with
    | H : z_optional (z_array _) _ = Some _ |- _ =>
        apply z_optional_Some in H as [[_ ->]|(l & -> & H)];
          [constructor|apply variables_numbers]
    end.
    match goal with
    | H : z_array _ _ = Some _ |- _ =>
        apply (z_array_numbers variableSchema
                 (fun x => [variable_variablesReference x]) _ _) in H;
          [done|]
    end.
    intros w a Ha. constructor; [|constructor].
    by apply (variableSchema_numbers w).
Qed.

(** A message that was parsed, written as an object again, parses to the
    same message: what the schema gives back is valid for the schema. *)
Theorem parsed_message_parses_again v m :
  messageSchema v = Some m -> messageSchema (Message_object m) = Some m.
Proof.
  intros Hm.
  by apply typed_message_is_valid, (parsed_numbers_are_numbers v).
Qed.


(** *** Keys outside the schema *)

Lemma prop_insert_ne key k x before after :
  k <> key ->
  (before ++ (k, x) :: after).[key] = (before ++ after).[key].
Proof.
  intros Hne. induction before as [|[k' x'] before IH]; cbn.
  - by rewrite decide_False.
  - by rewrite IH.
Qed.

(** Every key the schema reads is another key than [k]. *)
Local Ltac other_keys Hk :=
  unfold message_keys, stackFrame_keys, variable_keys in Hk;
  rewrite ?not_elem_of_cons in Hk; destruct_and!;
  rewrite !prop_insert_ne by done.

(** The object schemas are not strict: a property under a key that none of
    them names changes nothing, whatever its value and wherever it stands
    in the object; so for a message, for a stack frame and for a
    variable. *)
Theorem unknown_keys_are_ignored k x before after :
  (k ∉ message_keys ->
   messageSchema (JObject (before ++ (k, x) :: after))
   = messageSchema (JObject (before ++ after)))
  /\ (k ∉ stackFrame_keys ->
      stackFrameSchema (JObject (before ++ (k, x) :: after))
      = stackFrameSchema (JObject (before ++ after)))
  /\ (k ∉ variable_keys ->
      variableSchema (JObject (before ++ (k, x) :: after))
      = variableSchema (JObject (before ++ after))).
Proof.
  split; [|split]; intros Hk.
  - unfold messageSchema, requestSchema, responseSchema, eventSchema,
      executeLldbCommandRequestSchema, getStackTraceRequestSchema,
      getVariablesRequestSchema, executeLldbCommandResponseSchema,
      getStackTraceResponseSchema, getVariablesResponseSchema,
      debuggerStoppedEventSchema, debuggerContinuedEventSchema.
    cbn [z_union z_object]. by other_keys Hk.
  - unfold stackFrameSchema. cbn [z_object]. by other_keys Hk.
  - unfold variableSchema. cbn [z_object]. by other_keys Hk.
Qed.

End Schema.

(** ** More on the listening role *)

Section Listening.

Variable format : jsvalue -> jsvalue.

Implicit Types (active : option DebugSession) (ws : nat) (id : string).



(** *** The dispatcher with a session *)

Lemma lldb_session_active session :
  session_type session = "lldb" -> lldb_session (Some session) = Some session.
Proof. intros Htype. unfold lldb_session. by rewrite decide_True. Qed.

(** With an LLDB session active, a request makes exactly one request to the
    session, whatever the session answers: [evaluate] in the [_command]
    context, [stackTrace] from frame 0 for at most 100 levels, or
    [variables]; a variablesReference of 0 makes none. *)
Theorem one_session_request_per_command session ws request :
  session_type session = "lldb" ->
  session_calls (handleRequest (Some session) ws request).1
  = match request with
    | ExecuteLldbCommandRequest lldb_command _ _ =>
        [("evaluate",
          JObject [("expression", JString lldb_command);
                   ("context", JString "_command")])]
    | GetStackTraceRequest threadId _ =>
        [("stackTrace",
          JObject [("threadId", JNumber threadId);
                   ("startFrame", JNumber (of_Z 0));
                   ("levels", JNumber (of_Z 100))])]
    | GetVariablesRequest variablesReference _ =>
        if is_zero variablesReference then []
        else [("variables",
               JObject [("variablesReference", JNumber variablesReference)])]
    end.
Proof.
  intros Htype%lldb_session_active.
  destruct request as [lldb_command id frameId | threadId id | ref id];
    cbn [handleRequest];
    unfold handleExecuteLldbCommand, handleGetStackTrace, handleGetVariables;
    rewrite Htype; unfold customRequest, try_catch, bind, lift.
  - destruct (session_answer session _ _) as [e|result]; cbn [fst snd];
      [done|].
    by destruct (get result "result").
  - destruct (session_answer session _ _) as [e|result]; cbn [fst snd];
      [done|].
    destruct (get result "body") as [e|body]; cbn [fst snd]; [done|].
    by destruct (get body "stackFrames").
  - destruct (is_zero ref); [done|].
    destruct (session_answer session _ _) as [e|result]; cbn [fst snd];
      [done|].
    destruct (get result "body") as [e|body]; cbn [fst snd]; [done|].
    by destruct (get body "variables").
Qed.

(** An error of the session is passed on as it is: when the session
    rejects a request with an [Error], the response is a failure whose
    error is the message of that error; when it rejects with something
    else, the error is the fixed text of the command. *)
Theorem session_error_is_passed_on session ws request error :
  session_type session = "lldb" ->
  (forall command args, session_answer session command args = inl error) ->
  match request with
  | GetVariablesRequest variablesReference _ =>
      is_zero variablesReference = false
  | _ => True
  end ->
  sent (handleRequest (Some session) ws request).1
  = [(ws, JSON_stringify
            (failure (request_command request)
               (message_or
                  match request with
                  | ExecuteLldbCommandRequest _ _ _ =>
                      "Command execution failed"
                  | GetStackTraceRequest _ _ => "Failed to get stack trace"
                  | GetVariablesRequest _ _ => "Failed to get variables"
                  end error)
               (request_id request)))].
Proof.
  intros Htype%lldb_session_active Hfails Hnonzero.
  destruct request as [lldb_command id frameId | threadId id | ref id];
    cbn [handleRequest];
    unfold handleExecuteLldbCommand, handleGetStackTrace, handleGetVariables;
    rewrite Htype, ?Hnonzero; unfold customRequest, try_catch, bind, lift;
    by rewrite Hfails.
Qed.

(** A stack trace or a list of variables is reported as a success only
    when the answer of the session has a [body]: when reading [body] off
    the answer throws or gives [undefined] or [null], the response is a
    failure. *)
Theorem success_needs_a_body session ws request result :
  session_type session = "lldb" ->
  (forall command args, session_answer session command args = inr result) ->
  (forall body, get result "body" = inr body ->
                body = JUndefined \/ body = JNull) ->
  request_command request <> "executeLldbCommand" ->
  exists reply,
    sent (handleRequest (Some session) ws request).1 = [(ws, reply)]
    /\ frame_prop "success" reply = JBool false.
Proof.
  intros Htype%lldb_session_active Hanswer Hbody Hcommand.
  destruct request as [lldb_command id frameId | threadId id | ref id];
    [done|..]; cbn [handleRequest];
    unfold handleGetStackTrace, handleGetVariables;
    rewrite Htype; unfold customRequest, try_catch, bind, lift;
    try (destruct (is_zero ref); [eexists; split; reflexivity|]);
    rewrite Hanswer; cbn [fst snd];
    (destruct (get result "body") as [e|body]; cbn [fst snd];
     [eexists; split; reflexivity|]);
    destruct (Hbody body eq_refl) as [-> | ->]; cbn [fst snd get];
    eexists; split; reflexivity.
Qed.

(** *** Events of the debug adapter *)

Implicit Types (readyState : nat -> nat) (clients : list nat).

(** [broadcastEvent] sends the one serialised event to each open client,
    in order, and throws nothing. *)
Lemma broadcastEvent_sends readyState clients event :
  broadcastEvent readyState clients event
  = (map (fun c => WsSend c (JSON_stringify event))
       (filter (fun c => readyState c = 1) clients),
     inr tt).
Proof.
  unfold broadcastEvent. induction clients as [|c clients IH]; [done|].
  cbn [foldr]. rewrite IH, filter_cons.
  by destruct (decide (readyState c = 1)).
Qed.

(** The set [clients] after any history of the server holds each peer
    once. *)
Lemma track_NoDup evs : NoDup (foldl track [] evs).
Proof.
  assert (forall l, NoDup l -> NoDup (foldl track l evs)) as H;
    [|apply H; constructor].
  induction evs as [|ev evs IH]; intros l Hl; [done|].
  cbn [foldl]. apply IH. destruct ev as [ws|ws data active|ws|ws]; cbn.
  - unfold Set_add. destruct (decide (ws ∈ l)); [done|].
    apply NoDup_app. split; [done|]. split; [|apply NoDup_singleton].
    intros x Hx ->%list_elem_of_singleton. done.
  - done.
  - by apply NoDup_filter.
  - by apply NoDup_filter.
Qed.

(** An event is broadcast to the clients that are connected and open, once
    each, as the same frame; the debug session is not asked anything and
    nothing is thrown. *)
Theorem broadcast_reaches_open_clients_once evs readyState event :
  let clients := foldl track [] evs in
  exists trace,
    broadcastEvent readyState clients event = (trace, inr tt)
    /\ session_calls trace = []
    /\ NoDup (sent trace).*1
    /\ (forall c data,
          (c, data) ∈ sent trace
          <-> c ∈ clients /\ readyState c = 1
              /\ data = JSON_stringify event).
Proof.
  intros clients. eexists. split; [apply broadcastEvent_sends|].
  pose proof (track_NoDup evs) as Hnodup. fold clients in Hnodup.
  set (open := filter (fun c => readyState c = 1) clients).
  assert (forall l,
            sent (map (fun c => WsSend c (JSON_stringify event)) l)
            = map (fun c => (c, JSON_stringify event)) l) as Hsent.
  { induction l as [|c l IH]; [done|]. cbn. by rewrite <- IH. }
  assert (forall l,
            session_calls (map (fun c => WsSend c (JSON_stringify event)) l)
            = []) as Hcalls.
  { induction l as [|c l IH]; [done|]. cbn. by rewrite <- IH. }
  rewrite Hsent, Hcalls. split; [done|]. split.
  - change (map ?f ?l) with (f <$> l). rewrite <- list_fmap_compose.
    cbn. rewrite list_fmap_id. by apply NoDup_filter.
  - intros c data. change (map ?f ?l) with (f <$> l).
    rewrite list_elem_of_fmap. unfold open. split.
    + intros (c' & [= -> ->] & [Hopen Hin]%list_elem_of_filter). done.
    + intros (Hin & Hopen & ->). exists c. split; [done|].
      by apply list_elem_of_filter.
Qed.

End Listening.

(** ** An event of the debug adapter, from end to end *)

Section AdapterEvents.

Implicit Types (readyState : nat -> nat) (clients : list nat)
  (mprops bprops : list (string * jsvalue)) (s : Server).

(** A "stopped" message of the adapter whose body has a numeric threadId
    (one that JSON text carries), a reason and a description that are
    strings or absent, and an allThreadsStopped that is a boolean or
    absent: the one frame made of it goes to every open client, and an
    MCP server that receives it shows the debugger stopped on that thread,
    for that reason; an absent or empty reason reads "unknown". *)
Theorem stopped_reaches_the_cache
    readyState clients mprops bprops threadId reason description all s :
  mprops.["type"] = JString "event" ->
  mprops.["event"] = JString "stopped" ->
  mprops.["body"] = JObject bprops ->
  bprops.["threadId"] = JNumber threadId -> json_exact threadId = true ->
  z_optional z_string bprops.["reason"] = Some reason ->
  z_optional z_string bprops.["description"] = Some description ->
  z_optional z_boolean bprops.["allThreadsStopped"] = Some all ->
  exists data,
    onDidSendMessage readyState clients (JObject mprops)
    = (map (fun c => WsSend c data)
         (filter (fun c => readyState c = 1) clients),
       inr tt)
    /\ debuggerState (onmessage data s)
       = {| isStopped := true; currentThreadId := threadId;
            stopReason := match reason with
                          | Some (String c rest) => String c rest
                          | _ => "unknown"
                          end;
            connectionStatus := connectionStatus (debuggerState s);
            connectionPort := connectionPort (debuggerState s) |}.
Proof.
  intros Htype Hevent Hbody Hthread Hexact Hreason Hdescription Hall.
  eexists. split.
  - unfold onDidSendMessage, lift, bind. cbn [get fst snd app].
    rewrite Htype, Hevent. cbn [is_string]. rewrite !bool_decide_eq_true_2 by done.
    rewrite Hbody. cbn [get fst snd app].
    rewrite broadcastEvent_sends. reflexivity.
  - rewrite Hthread.
    apply z_optional_Some in Hreason as [[-> ->]|(r & -> & ->%z_string_Some)];
    apply z_optional_Some in Hdescription
      as [[-> ->]|(d & -> & ->%z_string_Some)];
    apply z_optional_Some in Hall as [[-> ->]|(a & -> & ->%z_boolean_Some)];
    destruct threadId as [[]|[]| |]; try discriminate Hexact;
    try destruct r; reflexivity.
Qed.


(** The same message with a threadId that is not a number (the adapter may
    leave it out): the frame still goes to every open client, but it fails
    the schema there, and the MCP server that receives it is left as it
    was. *)
Theorem stopped_without_thread_is_dropped
    readyState clients mprops bprops reason description all s :
  mprops.["type"] = JString "event" ->
  mprops.["event"] = JString "stopped" ->
  mprops.["body"] = JObject bprops ->
  (forall n, bprops.["threadId"] <> JNumber n) ->
  z_optional z_string bprops.["reason"] = Some reason ->
  z_optional z_string bprops.["description"] = Some description ->
  z_optional z_boolean bprops.["allThreadsStopped"] = Some all ->
  exists data,
    onDidSendMessage readyState clients (JObject mprops)
    = (map (fun c => WsSend c data)
         (filter (fun c => readyState c = 1) clients),
       inr tt)
    /\ decode data = None
    /\ onmessage data s = s.
Proof.
  intros Htype Hevent Hbody Hthread Hreason Hdescription Hall.
  eexists. split.
  - unfold onDidSendMessage, lift, bind. cbn [get fst snd app].
    rewrite Htype, Hevent. cbn [is_string].
    rewrite !bool_decide_eq_true_2 by done.
    rewrite Hbody. cbn [get fst snd app].
    rewrite broadcastEvent_sends. reflexivity.
  - apply z_optional_Some in Hreason as [[-> ->]|(r & -> & ->%z_string_Some)];
    apply z_optional_Some in Hdescription
      as [[-> ->]|(d & -> & ->%z_string_Some)];
    apply z_optional_Some in Hall as [[-> ->]|(a & -> & ->%z_boolean_Some)];
    destruct (bprops.["threadId"]) as [| | |n| | |];
    try (by destruct (Hthread n));
    try destruct r; split; reflexivity.
Qed.

(** A "continued" message with a numeric threadId: an MCP server that
    receives the frame shows the debugger running, and keeps the thread
    and the reason of the last stop. *)
Theorem continued_reaches_the_cache
    readyState clients mprops bprops threadId all s :
  mprops.["type"] = JString "event" ->
  mprops.["event"] = JString "continued" ->
  mprops.["body"] = JObject bprops ->
  bprops.["threadId"] = JNumber threadId -> json_exact threadId = true ->
  z_optional z_boolean bprops.["allThreadsContinued"] = Some all ->
  exists data,
    onDidSendMessage readyState clients (JObject mprops)
    = (map (fun c => WsSend c data)
         (filter (fun c => readyState c = 1) clients),
       inr tt)
    /\ debuggerState (onmessage data s)
       = {| isStopped := false;
            currentThreadId := currentThreadId (debuggerState s);
            stopReason := stopReason (debuggerState s);
            connectionStatus := connectionStatus (debuggerState s);
            connectionPort := connectionPort (debuggerState s) |}.
Proof.
  intros Htype Hevent Hbody Hthread Hexact Hall.
  eexists. split.
  - unfold onDidSendMessage, lift, bind. cbn [get fst snd app].
    rewrite Htype, Hevent. cbn [is_string].
    rewrite bool_decide_eq_true_2 by done.
    rewrite bool_decide_eq_false_2 by done.
    rewrite bool_decide_eq_true_2 by done.
    rewrite Hbody. cbn [get fst snd app].
    rewrite broadcastEvent_sends. reflexivity.
  - rewrite Hthread.
    apply z_optional_Some in Hall as [[-> ->]|(a & -> & ->%z_boolean_Some)];
    destruct threadId as [[]|[]| |]; try discriminate Hexact;
    reflexivity.
Qed.

End AdapterEvents.

(** ** Starting the server, and connecting to it *)

Section Starting.

(** [tryStart] from the attempt number [n], reached after [n] ports that
    were taken. *)
Lemma tryStart_outcome fuel world n :
  n < bind_maxRetries -> bind_maxRetries - n <= fuel ->
  exists k r,
    tryStart fuel world n n (bind_retry_delay * N.of_nat n)%N = Some r
    /\ n <= k < bind_maxRetries
    /\ (forall j, n <= j < k -> in_use (world j).2 = true)
    /\ (in_use (world k).2 = true -> S k = bind_maxRetries)
    /\ bind_waited r = (bind_retry_delay * N.of_nat k)%N
    /\ currentPort r
       = match (world k).2 with
         | Listens => Some ((world k).1 + 10000)%N
         | _ => None
         end.
Proof.
  revert n. induction fuel as [|fuel IH]; intros n Hn Hfuel.
  { unfold bind_maxRetries in *. lia. }
  cbn [tryStart].
  destruct (world n).2 as [|message|] eqn:Hfate.
  - exists n, {| servers := S n;
                 bind_waited := (bind_retry_delay * N.of_nat n)%N;
                 bind_retries := n;
                 currentPort := Some ((world n).1 + 10000)%N;
                 wss_defined := true |}.
    rewrite Hfate. cbn. repeat split; first [done|lia|intros; lia].
  - destruct (includes "EADDRINUSE" message) eqn:Hmessage.
    + destruct (decide (S n < bind_maxRetries)) as [Hmore|Hlast].
      * replace (bind_retry_delay * N.of_nat n + bind_retry_delay)%N
          with (bind_retry_delay * N.of_nat (S n))%N by lia.
        destruct (IH (S n)) as (k & r & -> & Hk & Hbefore & Hrest);
          [done|lia|].
        exists k, r. split; [done|]. split; [lia|]. split; [|done].
        intros j Hj. destruct (decide (j = n)) as [->|].
        -- by rewrite Hfate.
        -- apply Hbefore. lia.
      * eexists n, _. split; [reflexivity|]. rewrite Hfate. cbn.
        repeat split; first [done|lia|intros; lia].
    + eexists n, _. split; [reflexivity|]. rewrite Hfate. cbn.
      rewrite Hmessage. repeat split; first [done|lia|intros; lia].
  - eexists n, _. split; [reflexivity|]. rewrite Hfate. cbn.
    repeat split; first [done|lia|intros; lia].
Qed.

(** [startWebSocketServer] always ends, after at most 10 attempts 100 ms
    apart: the first attempt whose port is not reported taken decides (the
    tenth decides in any case); [currentPort] is set, to the port of that
    attempt, exactly when its server comes to listen. An error other than
    a taken port, and a constructor that throws, are not retried. *)
Theorem startWebSocketServer_outcome world :
  exists k r,
    startWebSocketServer world = Some r
    /\ k < bind_maxRetries
    /\ (forall j, j < k -> in_use (world j).2 = true)
    /\ (in_use (world k).2 = true -> S k = bind_maxRetries)
    /\ bind_waited r = (bind_retry_delay * N.of_nat k)%N
    /\ currentPort r
       = match (world k).2 with
         | Listens => Some ((world k).1 + 10000)%N
         | _ => None
         end.
Proof.
  destruct (tryStart_outcome bind_maxRetries world 0)
    as (k & r & Hr & Hk & Hbefore & Hrest);
    [unfold bind_maxRetries; lia|lia|].
  exists k, r. split; [exact Hr|]. split; [lia|]. split; [|done].
  intros j Hj. apply Hbefore. lia.
Qed.


Lemma connect_outcome fuel world n port st :
  n < maxRetries -> maxRetries - n <= fuel ->
  connectionPort st = Some port ->
  connectionStatus st = connecting ->
  exists k c,
    connect fuel world n n (retry_delay * N.of_nat n)%N st = Some c
    /\ n <= k < maxRetries
    /\ (forall j, n <= j < k -> throws (world j) = true)
    /\ (throws (world k) = true -> S k = maxRetries)
    /\ attempts c = S k
    /\ waited c = (retry_delay * N.of_nat k)%N
    /\ (outcome c, connectionStatus (state c), connectionPort (state c))
       = attempt_result (world k) port.
Proof.
  revert n. induction fuel as [|fuel IH]; intros n Hn Hfuel Hport Hstatus.
  { unfold maxRetries in *. lia. }
  cbn [connect]. rewrite decide_False by lia.
  destruct (world n) as [error|after|after error|] eqn:Hfate.
  - destruct (decide (S n < maxRetries)) as [Hmore|Hlast].
    + replace (retry_delay * N.of_nat n + retry_delay)%N
        with (retry_delay * N.of_nat (S n))%N by lia.
      destruct (IH (S n)) as (k & c & -> & Hk & Hbefore & Hrest);
        [done|lia|done|done|].
      exists k, c. split; [done|]. split; [lia|]. split; [|done].
      intros j Hj. destruct (decide (j = n)) as [->|].
      * by rewrite Hfate.
      * apply Hbefore. lia.
    + eexists n, _. split; [reflexivity|]. rewrite Hfate. cbn.
      rewrite Hport, Hstatus.
      repeat split; first [done|lia|intros; lia].
  - cbn [attempt_result].
    destruct (decide (after < connection_timeout)%N);
      (eexists n, _; split; [reflexivity|]); rewrite Hfate; cbn;
      rewrite ?Hport; repeat case_decide; try done;
      repeat split; first [done|lia|intros; lia].
  - cbn [attempt_result].
    destruct (decide (after < connection_timeout)%N);
      (eexists n, _; split; [reflexivity|]); rewrite Hfate; cbn;
      repeat case_decide; try done;
      repeat split; first [done|lia|intros; lia].
  - eexists n, _. split; [reflexivity|]. rewrite Hfate. cbn.
    repeat split; first [done|lia|intros; lia].
Qed.


(** [connectToExtension] always ends, after at most 5 attempts 2 s apart.
    The attempts before the last are those whose constructor threw; the
    first attempt whose constructor does not throw settles the call, as a
    connection or as a failure, and the fifth settles it in any case. A
    failure leaves the cache disconnected, without a port, except when the
    constructor threw: then it is left "connecting". *)
Theorem connectToExtension_outcome world port st :
  exists k c,
    connectToExtension world port st = Some c
    /\ k < maxRetries
    /\ (forall j, j < k -> throws (world j) = true)
    /\ (throws (world k) = true -> S k = maxRetries)
    /\ attempts c = S k
    /\ waited c = (retry_delay * N.of_nat k)%N
    /\ (outcome c, connectionStatus (state c), connectionPort (state c))
       = attempt_result (world k) port.
Proof.
  destruct (connect_outcome (S maxRetries) world 0 port
              (set_connection connecting (Some port) st))
    as (k & c & Hc & Hk & Hbefore & Hrest);
    [unfold maxRetries; lia|lia|done|done|].
  exists k, c. split; [exact Hc|]. split; [lia|]. split; [|done].
  intros j Hj. apply Hbefore. lia.
Qed.

(** After a call that failed, the socket not being open, the next
    [sendRequest] reconnects, except when the call gave up on a
    constructor that threw: the cache still says "connecting", and the
    request is refused without a new attempt. *)
Theorem next_request_after_a_failure world port st c error :
  connectToExtension world port st = Some c ->
  outcome c = inl error ->
  connection_check false (state c)
  = if throws (world (attempts c - 1)) then Refuse else Reconnect.
Proof.
  intros Hc Herror.
  destruct (connect_outcome (S maxRetries) world 0 port
              (set_connection connecting (Some port) st))
    as (k & c' & Hc' & _ & _ & _ & Hattempts & _ & Hresult);
    [unfold maxRetries; lia|lia|done|done|].
  unfold connectToExtension in Hc.
  change (retry_delay * N.of_nat 0)%N with 0%N in Hc'.
  rewrite Hc in Hc'. injection Hc' as <-.
  rewrite Hattempts. replace (S k - 1) with k by lia.
  unfold connection_check.
  destruct (world k) as [e|after|after e|]; cbn in Hresult |- *;
    repeat case_decide; injection Hresult as Hout Hstatus Hport;
    rewrite Hstatus; congruence.
Qed.

End Starting.

(** ** More on the connecting role *)

Section Cache.

Implicit Types (s : Server) (st : DebuggerState).




(** After a stop and any number of "continued" events, the cache still
    carries the thread and the reason of that stop; it says "stopped"
    only if nothing came after the stop. *)
Theorem cache_keeps_the_last_stop
    st before reason threadId description all after :
  Forall (fun e => exists t a, e = DebuggerContinuedEvent t a) after ->
  foldl (fun st e => handleEvent e st) st
    (before
     ++ DebuggerStoppedEvent reason threadId description all :: after)
  = {| isStopped := match after with [] => true | _ => false end;
       currentThreadId := threadId; stopReason := reason;
       connectionStatus := connectionStatus st;
       connectionPort := connectionPort st |}.
Proof.
  intros Hafter. rewrite foldl_app. cbn [foldl].
  assert (forall l st0,
            connectionStatus
              (foldl (fun st e => handleEvent e st) st0 l)
            = connectionStatus st0
            /\ connectionPort
                 (foldl (fun st e => handleEvent e st) st0 l)
               = connectionPort st0) as Hconn.
  { induction l as [|e l IH]; intros st0; [done|].
    cbn [foldl]. destruct (IH (handleEvent e st0)) as [-> ->].
    by destruct e. }
  destruct (Hconn before st) as [<- <-].
  set (st1 := foldl _ st before). clearbody st1.
  revert Hafter. induction after as [|e after IH] using rev_ind;
    intros Hafter; [done|].
  apply Forall_app in Hafter as [Hafter (t & a & ->)%Forall_singleton].
  rewrite foldl_app. cbn [foldl]. rewrite IH by done. cbn.
  by destruct after.
Qed.

End Cache.

(** ** The pending table *)

Section Pending.

Implicit Types (s : Server) (p q : nat) (id : string) (t : Timer).

(** No entry of the pending table outlives the window: once 30 seconds
    have passed, the handlers and the timers that are left belong to
    requests made since. *)
Theorem pending_entries_expire (pre post : list input) id q :
  (request_timeout <= elapsed post)%N ->
  responseHandlers (run (pre ++ post) initial) !! id = Some q ->
  promises (run pre initial) <= q.
Proof.
  intros Hwindow Hq. rewrite run_app in Hq.
  set (s0 := run pre initial) in *.
  assert (invariant s0) as Hinv0 by apply reachable_invariant.
  assert (invariant (run post s0)) as Hinv by by apply invariant_run.
  destruct (inv_handlers _ Hinv _ _ Hq) as (t & Hin & _).
  destruct (decide (promises s0 <= q)) as [|Hold]; [done|]. exfalso.
  destruct (inv_pending _ Hinv _ _ Hin) as (_ & _ & Hnow & _).
  apply timers_run in Hin; [|lia].
  destruct (inv_pending _ Hinv0 _ _ Hin) as (_ & _ & _ & Hdeadline).
  rewrite clock_run in Hnow. lia.
Qed.

(** A response handed to the handler registered under its id. *)
Lemma onmessage_response data r p s :
  decode data = Some (MResponse r) ->
  responseHandlers s !! response_id r = Some p ->
  onmessage data s
  = delete_handler (response_id r)
      (settle p (response_settlement r) (clearTimeout p s)).
Proof.
  intros Hr Hp. unfold onmessage. unfold decode in Hr.
  destruct (JSON_parse data) as [|message]; [done|].
  by rewrite Hr, Hp, handler_settles.
Qed.

Lemma onmessage_unmatched data r s :
  decode data = Some (MResponse r) ->
  responseHandlers s !! response_id r = None ->
  onmessage data s = s.
Proof.
  intros Hr Hp. unfold onmessage. unfold decode in Hr.
  destruct (JSON_parse data) as [|message]; [done|].
  by rewrite Hr, Hp.
Qed.

Lemma onmessage_undecoded data s : decode data = None -> onmessage data s = s.
Proof.
  intros Hr. unfold onmessage. unfold decode in Hr.
  destruct (JSON_parse data) as [|message]; [done|]. by rewrite Hr.
Qed.

(** Two requests in flight that drew the same id: the timeout of the
    first deletes the handler of the second, so the response that then
    comes for the id is dropped, and the second request is rejected by its
    own timeout. *)
Theorem colliding_ids_lose_the_response
    (pre : list input) id requestA requestB (gap : N) data r :
  (0 < gap < request_timeout)%N ->
  decode data = Some (MResponse r) -> response_id r = id ->
  let s0 := run pre initial in
  let pB := S (promises s0) in
  let s := run [Send Ready id requestA; Elapse gap;
                Send Ready id requestB; Elapse (request_timeout - gap)] s0 in
  settled pB s = []
  /\ onmessage data s = s
  /\ settled pB (run [Receive data; Elapse gap] s)
     = [((clock s0 + gap + request_timeout)%N,
         Rejected (ErrorObject "Request timeout"))].
Proof.
  intros Hgap Hr Hid s0 pB s.
  assert (invariant s0) as Hinv0 by apply reachable_invariant.
  set (tA := {| deadline := (clock s0 + request_timeout)%N; timer_id := id |}).
  set (tB := {| deadline := (clock s0 + gap + request_timeout)%N;
                timer_id := id |}).
  set (s1 := register id requestA s0).
  set (s2 := elapse gap s1).
  set (s3 := register id requestB s2).
  assert (s = elapse (request_timeout - gap) s3) as Hs by reflexivity.
  assert (invariant s3) as Hinv3.
  { apply (invariant_sendRequest Ready), invariant_elapse,
      (invariant_sendRequest Ready), Hinv0. }
  assert (invariant s) as Hinv by (rewrite Hs; by apply invariant_elapse).
  assert (promises s2 = S (promises s0)) as Hp2
    by (unfold s2; by rewrite elapse_promises).
  assert (clock s3 = (clock s0 + gap)%N) as Hclock3 by reflexivity.
  assert ((promises s0, tA) ∈ timers s3) as HA.
  { cbn [s3 register timers]. apply elem_of_app. left.
    unfold s2. rewrite elapse_timers. apply list_elem_of_filter.
    split; [cbn; lia|]. cbn. apply elem_of_app. right.
    apply list_elem_of_here. }
  assert ((pB, tB) ∈ timers s3) as HB.
  { cbn [s3 register timers]. apply elem_of_app. right.
    rewrite Hp2. apply list_elem_of_here. }
  assert ((pB, tB) ∈ timers s) as HB'.
  { rewrite Hs, elapse_timers. apply list_elem_of_filter.
    split; [|done]. rewrite Hclock3. cbn. lia. }
  assert (responseHandlers s !! id = None) as Hgone.
  { rewrite Hs, elapse_handlers, decide_True; [done|].
    apply list_elem_of_fmap. exists tA. split; [done|].
    apply list_elem_of_fmap. exists (promises s0, tA). split; [done|].
    apply list_elem_of_filter. split; [|done]. rewrite Hclock3. cbn. lia. }
  assert (onmessage data s = s) as Hdropped.
  { apply (onmessage_unmatched data r); [done|]. by rewrite Hid. }
  split; [apply (inv_pending _ Hinv _ _ HB')|]. split; [done|].
  cbn [run foldl step]. rewrite Hdropped.
  rewrite (elapse_settled_due gap s pB tB).
  - by destruct (inv_pending _ Hinv _ _ HB') as (_ & -> & _).
  - apply (inv_timers _ Hinv).
  - done.
  - rewrite Hs, elapse_clock, Hclock3. cbn. lia.
Qed.

End Pending.

(** ** A tool call, through both roles *)

Section ToolCall.

Variable format : jsvalue -> jsvalue.

Implicit Types (s : Server) (active : option DebugSession) (ws : nat)
  (id command : string).

(** The frame [sendRequest] sends for the tool is the request the
    extension dispatches, under the id that was drawn. *)
Lemma tool_frame_is_dispatched id command active ws :
  on_message format active ws
    (JSON_stringify (JObject (spread_set "id" (JString id)
                                (tool_request command))))
  = handleExecuteLldbCommand active ws command id.
Proof.
  unfold on_message, lift, bind, try_catch. cbn [JSON_stringify JSON_parse fst snd].
  replace (messageSchema _)
    with (Some (MRequest (ExecuteLldbCommandRequest command id None)))
    by (vm_compute; reflexivity).
  cbn [handleRequest app].
  destruct (handleRequest_one_response active ws
              (ExecuteLldbCommandRequest command id None))
    as (trace & data & Hrun & _).
  cbn [handleRequest] in Hrun. by rewrite Hrun.
Qed.

(** The promise of the request, settled by a response that comes to the
    state the request left. *)
Lemma tool_promise_settled pre id command data r :
  let s0 := run pre initial in
  let s1 := sendRequest Ready id (tool_request command) s0 in
  decode data = Some (MResponse r) -> response_id r = id ->
  settled (promises s0) (onmessage data s1)
  = [(clock s0, response_settlement r)].
Proof.
  intros s0 s1 Hr Hid.
  assert (invariant s0) as Hinv0 by apply reachable_invariant.
  rewrite (onmessage_response data r (promises s0)); [|done|].
  - unfold settled. cbn. rewrite decide_True by done.
    fold (settled (promises s0) s0). by rewrite (inv_fresh _ Hinv0).
  - rewrite Hid. cbn. apply lookup_insert_eq.
Qed.

(** The tool [debugger_executeLldbCommand] through the relay: the request
    sent by the MCP server is dispatched by the extension, and the frame
    the extension answers with settles the promise of the request. With
    no LLDB session, the tool reports the error "No active LLDB debug
    session"; when the session rejects the evaluation, its error; when the
    session returns a text, that text (a fixed text when it is empty). *)
Theorem tool_call_round_trip pre id command active ws :
  let s0 := run pre initial in
  let s1 := sendRequest Ready id (tool_request command) s0 in
  exists request reply,
    outbox s1 = request :: outbox s0
    /\ sent (on_message format active ws request).1 = [(ws, reply)]
    /\ (lldb_session active = None ->
        settled (promises s0) (onmessage reply s1)
        = [(clock s0,
            Rejected (ErrorObject "No active LLDB debug session"))]
        /\ tool_result
             (Rejected (ErrorObject "No active LLDB debug session"))
           = {| tool_text := "Error: No active LLDB debug session";
                tool_isError := true |})
    /\ (forall session error,
          lldb_session active = Some session ->
          session_answer session "evaluate"
            (JObject [("expression", JString command);
                      ("context", JString "_command")]) = inl error ->
          settled (promises s0) (onmessage reply s1)
          = [(clock s0,
              Rejected
                (ErrorObject
                   (error_or_default
                      (Some (message_or "Command execution failed"
                               error)))))])
    /\ (forall session result text,
          lldb_session active = Some session ->
          session_answer session "evaluate"
            (JObject [("expression", JString command);
                      ("context", JString "_command")]) = inr result ->
          get result "result" = inr (JString text) ->
          settled (promises s0) (onmessage reply s1)
          = [(clock s0,
              Resolved (ExecuteLldbCommandResponse true (Some text) None id))]
          /\ tool_result
               (Resolved (ExecuteLldbCommandResponse true (Some text) None id))
             = {| tool_text := match text with
                               | EmptyString => "Command executed successfully"
                               | _ => text
                               end;
                  tool_isError := false |}).
Proof.
  intros s0 s1.
  destruct (handleRequest_one_response active ws
              (ExecuteLldbCommandRequest command id None))
    as (trace & reply & Hrun & Hsent & _).
  cbn [handleRequest] in Hrun.
  eexists _, reply. split; [reflexivity|].
  rewrite tool_frame_is_dispatched, Hrun. split; [exact Hsent|].
  unfold handleExecuteLldbCommand in Hrun.
  split; [|split].
  - intros Hnone. rewrite Hnone in Hrun. injection Hrun as <-.
    injection Hsent as <-. split; [|done].
    by rewrite (tool_promise_settled pre id command _
                  (ExecuteLldbCommandResponse false None
                     (Some "No active LLDB debug session") id)).
  - intros session error Hsome Hanswer. rewrite Hsome in Hrun.
    unfold customRequest, try_catch, bind, lift in Hrun.
    rewrite Hanswer in Hrun. cbn [fst snd] in Hrun.
    injection Hrun as <-. injection Hsent as <-.
    by rewrite (tool_promise_settled pre id command _
                  (ExecuteLldbCommandResponse false None
                     (Some (message_or "Command execution failed" error))
                     id)).
  - intros session result text Hsome Hanswer Htext. rewrite Hsome in Hrun.
    unfold customRequest, try_catch, bind, lift in Hrun.
    rewrite Hanswer in Hrun. cbn [fst snd] in Hrun.
    rewrite Htext in Hrun. cbn [fst snd] in Hrun.
    injection Hrun as <-. injection Hsent as <-.
    split; [|by destruct text].
    by rewrite (tool_promise_settled pre id command _
                  (ExecuteLldbCommandResponse true (Some text) None id)).
Qed.


(** When the session returns, as the result of the evaluation, something
    that is neither a string nor [undefined], the extension reports a
    success whose frame fails the schema of the MCP server: the frame is
    dropped there, and the request is rejected by its timeout, 30 seconds
    after it was sent. *)
Theorem unreadable_result_times_out pre id command session ws result x :
  session_type session = "lldb" ->
  session_answer session "evaluate"
    (JObject [("expression", JString command);
              ("context", JString "_command")]) = inr result ->
  get result "result" = inr x ->
  x <> JUndefined -> (forall text, x <> JString text) ->
  let s0 := run pre initial in
  let s1 := sendRequest Ready id (tool_request command) s0 in
  exists request reply,
    outbox s1 = request :: outbox s0
    /\ sent (on_message format (Some session) ws request).1 = [(ws, reply)]
    /\ frame_prop "success" reply = JBool true
    /\ onmessage reply s1 = s1
    /\ settled (promises s0) (run [Receive reply; Elapse request_timeout] s1)
       = [((clock s0 + request_timeout)%N,
           Rejected (ErrorObject "Request timeout"))].
Proof.
  intros Htype%lldb_session_active Hanswer Hx Hdefined Hstring s0 s1.
  assert (invariant s1) as Hinv1
    by apply (invariant_sendRequest Ready), reachable_invariant.
  eexists _, _. split; [reflexivity|].
  rewrite tool_frame_is_dispatched. unfold handleExecuteLldbCommand.
  rewrite Htype. unfold customRequest, try_catch, bind, lift.
  rewrite Hanswer. cbn [fst snd]. rewrite Hx. cbn [fst snd app sent omap].
  split; [reflexivity|].
  set (reply := JSON_stringify _).
  assert (frame_prop "success" reply = JBool true /\ decode reply = None)
    as [Hsuccess Hdecode].
  { unfold reply.
    destruct x as [| |b|n|text|items|props]; try done;
      try (by destruct (Hstring text)); try (split; reflexivity).
    destruct n; split; reflexivity. }
  split; [done|]. split; [by apply onmessage_undecoded|].
  set (t := {| deadline := (clock s0 + request_timeout)%N; timer_id := id |}).
  destruct (pending_run [Receive reply; Elapse request_timeout] s1
              (promises s0) t Hinv1) as [[Hearly _]|[_ Hsettled]].
  - cbn. apply elem_of_app. right. apply list_elem_of_here.
  - constructor; [unfold answers; rewrite Hdecode; tauto|].
    constructor; [cbn; tauto|constructor].
  - rewrite clock_run in Hearly. cbn in Hearly. lia.
  - exact Hsettled.
Qed.

End ToolCall.

(** ** The properties above, at concrete inputs *)

(** A stack-trace request with a property no schema names: the fields of
    the typed request are those of the object. *)
Lemma parsed_fields_come_from_the_value_witness :
  let v := JObject [("type", JString "request");
                    ("command", JString "getStackTrace");
                    ("threadId", JNumber (of_Z 1));
                    ("id", JString "k3x9");
                    ("verbose", JBool true)] in
  let m := MRequest (GetStackTraceRequest (of_Z 1) "k3x9") in
  messageSchema v = Some m
  /\ exists props,
       v = JObject props
       /\ forall key x,
            own_prop key (Message_object m) = x -> scalar x = true ->
            props.[key] = x.
Proof.
  intros v m.
  assert (messageSchema v = Some m) as Hm by (vm_compute; reflexivity).
  split; [exact Hm|].
  exact (parsed_fields_come_from_the_value v m Hm).
Defined.

(** A stop event with its optional fields left out. *)
Lemma parsed_message_parses_again_witness :
  let v := JObject [("type", JString "event");
                    ("event", JString "debuggerStopped");
                    ("reason", JString "breakpoint");
                    ("threadId", JNumber (of_Z 1))] in
  let m := MEvent (DebuggerStoppedEvent "breakpoint" (of_Z 1) None None) in
  messageSchema v = Some m
  /\ messageSchema (Message_object m) = Some m.
Proof.
  intros v m.
  assert (messageSchema v = Some m) as Hm by (vm_compute; reflexivity).
  split; [exact Hm|].
  exact (parsed_message_parses_again v m Hm).
Defined.

(** A request with a [verbose] flag in its middle. *)
Lemma unknown_keys_are_ignored_witness :
  let before := [("type", JString "request");
                 ("command", JString "getVariables")] in
  let after := [("variablesReference", JNumber (of_Z 1001));
                ("id", JString "k3x9")] in
  ("verbose" ∉ message_keys)
  /\ messageSchema (JObject (before ++ ("verbose", JBool true) :: after))
     = Some (MRequest (GetVariablesRequest (of_Z 1001) "k3x9")).
Proof.
  intros before after.
  assert ("verbose" ∉ message_keys) as Hk.
  { unfold message_keys. rewrite !not_elem_of_cons.
    repeat split; first [discriminate|apply not_elem_of_nil]. }
  split; [exact Hk|].
  rewrite (proj1 (unknown_keys_are_ignored "verbose" (JBool true)
                    before after) Hk).
  vm_compute. reflexivity.
Defined.

(** A request for the variables of reference 1001. *)
Lemma one_session_request_per_command_witness :
  let session :=
    {| session_type := "lldb";
       session_answer := fun _ _ => inl (ErrorObject "process exited") |} in
  session_calls
    (handleRequest (Some session) 7
       (GetVariablesRequest (of_Z 1001) "r6")).1
  = [("variables",
      JObject [("variablesReference", JNumber (of_Z 1001))])].
Proof.
  intros session.
  apply (one_session_request_per_command session 7
           (GetVariablesRequest (of_Z 1001) "r6")).
  reflexivity.
Defined.

(** A session whose process has exited, asked for a stack trace. *)
Lemma session_error_is_passed_on_witness :
  let session :=
    {| session_type := "lldb";
       session_answer := fun _ _ => inl (ErrorObject "process exited") |} in
  sent (handleRequest (Some session) 7
          (GetStackTraceRequest (of_Z 1) "r7")).1
  = [(7, JSON_stringify (failure "getStackTrace" "process exited" "r7"))].
Proof.
  intros session.
  apply (session_error_is_passed_on session 7
           (GetStackTraceRequest (of_Z 1) "r7")
           (ErrorObject "process exited")).
  - reflexivity.
  - reflexivity.
  - exact I.
Defined.

(** A session that answers every request with an empty object. *)
Lemma success_needs_a_body_witness :
  let session :=
    {| session_type := "lldb";
       session_answer := fun _ _ => inr (JObject []) |} in
  exists reply,
    sent (handleRequest (Some session) 7
            (GetVariablesRequest (of_Z 1001) "r8")).1 = [(7, reply)]
    /\ frame_prop "success" reply = JBool false.
Proof.
  intros session.
  apply (success_needs_a_body session 7
           (GetVariablesRequest (of_Z 1001) "r8") (JObject [])).
  - reflexivity.
  - reflexivity.
  - intros body [= <-]. by left.
  - discriminate.
Defined.

(** A breakpoint hit on thread 1, with two clients of which one is open. *)
Lemma stopped_reaches_the_cache_witness :
  let bprops := [("reason", JString "breakpoint");
                 ("threadId", JNumber (of_Z 1));
                 ("allThreadsStopped", JBool true)] in
  let mprops := [("seq", JNumber (of_Z 12)); ("type", JString "event");
                 ("event", JString "stopped");
                 ("body", JObject bprops)] in
  let readyState := fun c => if decide (c = 7) then 1 else 3 in
  exists data,
    onDidSendMessage readyState [7; 8] (JObject mprops)
    = (map (fun c => WsSend c data)
         (filter (fun c => readyState c = 1) [7; 8]),
       inr tt)
    /\ debuggerState (onmessage data initial)
       = {| isStopped := true; currentThreadId := of_Z 1;
            stopReason := "breakpoint";
            connectionStatus := connectionStatus (debuggerState initial);
            connectionPort := connectionPort (debuggerState initial) |}.
Proof.
  intros bprops mprops readyState.
  apply (stopped_reaches_the_cache readyState [7; 8] mprops bprops (of_Z 1)
           (Some "breakpoint") None (Some true) initial);
    reflexivity.
Defined.

(** A stop whose body names no thread. *)
Lemma stopped_without_thread_is_dropped_witness :
  let bprops := [("reason", JString "pause")] in
  let mprops := [("type", JString "event"); ("event", JString "stopped");
                 ("body", JObject bprops)] in
  exists data,
    onDidSendMessage (fun _ => 1) [7] (JObject mprops)
    = (map (fun c => WsSend c data) (filter (fun c => 1 = 1) [7]), inr tt)
    /\ decode data = None
    /\ onmessage data initial = initial.
Proof.
  intros bprops mprops.
  apply (stopped_without_thread_is_dropped (fun _ => 1) [7] mprops bprops
           (Some "pause") None None initial);
    first [reflexivity|intros n; discriminate].
Defined.

(** Thread 1 resumed. *)
Lemma continued_reaches_the_cache_witness :
  let bprops := [("threadId", JNumber (of_Z 1));
                 ("allThreadsContinued", JBool true)] in
  let mprops := [("type", JString "event"); ("event", JString "continued");
                 ("body", JObject bprops)] in
  exists data,
    onDidSendMessage (fun _ => 1) [7] (JObject mprops)
    = (map (fun c => WsSend c data) (filter (fun c => 1 = 1) [7]), inr tt)
    /\ debuggerState (onmessage data initial)
       = {| isStopped := false;
            currentThreadId := currentThreadId (debuggerState initial);
            stopReason := stopReason (debuggerState initial);
            connectionStatus := connectionStatus (debuggerState initial);
            connectionPort := connectionPort (debuggerState initial) |}.
Proof.
  intros bprops mprops.
  apply (continued_reaches_the_cache (fun _ => 1) [7] mprops bprops (of_Z 1)
           (Some true) initial);
    reflexivity.
Defined.

(** Two ports taken, the third free. *)
Lemma startWebSocketServer_outcome_witness :
  let world := fun n : nat =>
    if decide (n < 2)
    then (4321%N, EmitsError "listen EADDRINUSE: address already in use")
    else (777%N, Listens) in
  exists k r,
    startWebSocketServer world = Some r
    /\ k < bind_maxRetries
    /\ (forall j, j < k -> in_use (world j).2 = true)
    /\ (in_use (world k).2 = true -> S k = bind_maxRetries)
    /\ bind_waited r = (bind_retry_delay * N.of_nat k)%N
    /\ currentPort r
       = match (world k).2 with
         | Listens => Some ((world k).1 + 10000)%N
         | _ => None
         end.
Proof.
  intros world. exact (startWebSocketServer_outcome world).
Defined.

(** A constructor that throws twice, then a socket that opens. *)
Lemma connectToExtension_outcome_witness :
  let world := fun n : nat =>
    if decide (n < 2) then Throws (ErrorObject "Invalid URL")
    else Opens 40 in
  exists k c,
    connectToExtension world (of_Z 14321) initial_debuggerState = Some c
    /\ k < maxRetries
    /\ (forall j, j < k -> throws (world j) = true)
    /\ (throws (world k) = true -> S k = maxRetries)
    /\ attempts c = S k
    /\ waited c = (retry_delay * N.of_nat k)%N
    /\ (outcome c, connectionStatus (state c), connectionPort (state c))
       = attempt_result (world k) (of_Z 14321).
Proof.
  intros world.
  exact (connectToExtension_outcome world (of_Z 14321)
           initial_debuggerState).
Defined.

(** A connection that is refused: the next request reconnects. *)
Lemma next_request_after_a_failure_witness :
  let world := fun _ : nat => Fails 3 (ErrorObject "ECONNREFUSED") in
  exists c,
    connectToExtension world (of_Z 14321) initial_debuggerState = Some c
    /\ outcome c = inl (ErrorObject "ECONNREFUSED")
    /\ connection_check false (state c) = Reconnect.
Proof.
  intros world.
  destruct (connectToExtension world (of_Z 14321) initial_debuggerState)
    as [c|] eqn:Hc; [|discriminate Hc].
  exists c.
  assert (outcome c = inl (ErrorObject "ECONNREFUSED")) as Hout
    by (injection Hc as <-; reflexivity).
  split; [reflexivity|]. split; [exact Hout|].
  exact (next_request_after_a_failure world (of_Z 14321)
           initial_debuggerState c (ErrorObject "ECONNREFUSED") Hc Hout).
Defined.

(** Two stops, then two resumptions. *)
Lemma cache_keeps_the_last_stop_witness :
  let before := [DebuggerStoppedEvent "step" (of_Z 2) None None] in
  let after := [DebuggerContinuedEvent (of_Z 1) None;
                DebuggerContinuedEvent (of_Z 2) (Some true)] in
  foldl (fun st e => handleEvent e st) initial_debuggerState
    (before
     ++ DebuggerStoppedEvent "breakpoint" (of_Z 1) None (Some true) :: after)
  = {| isStopped := false;
       currentThreadId := of_Z 1; stopReason := "breakpoint";
       connectionStatus := connectionStatus initial_debuggerState;
       connectionPort := connectionPort initial_debuggerState |}.
Proof.
  intros before after.
  apply (cache_keeps_the_last_stop initial_debuggerState before "breakpoint"
           (of_Z 1) None (Some true) after).
  repeat constructor; eauto.
Defined.

(** A request sent a minute after one that nobody answered: the handler
    that is left is its own. *)
Lemma pending_entries_expire_witness :
  let pre := [Send Ready "k3x9" (tool_request "bt")] in
  let post := [Elapse 60000; Send Ready "q7w1" (tool_request "frame info")] in
  (request_timeout <= elapsed post)%N
  /\ responseHandlers (run (pre ++ post) initial) !! "q7w1" = Some 1
  /\ promises (run pre initial) <= 1.
Proof.
  intros pre post.
  assert (request_timeout <= elapsed post)%N as Hwindow by by vm_compute.
  assert (responseHandlers (run (pre ++ post) initial) !! "q7w1" = Some 1)
    as Hq by (vm_compute; reflexivity).
  split; [exact Hwindow|]. split; [exact Hq|].
  exact (pending_entries_expire pre post "q7w1" 1 Hwindow Hq).
Defined.

(** Two requests ten seconds apart that drew the same id. *)
Lemma colliding_ids_lose_the_response_witness :
  let data :=
    JSON_stringify
      (Response_object
         (ExecuteLldbCommandResponse true (Some "frame #0") None "k3x9")) in
  let s := run [Send Ready "k3x9" (tool_request "bt"); Elapse 10000;
                Send Ready "k3x9" (tool_request "frame info");
                Elapse (request_timeout - 10000)] initial in
  (0 < 10000 < request_timeout)%N
  /\ settled 1 s = []
  /\ onmessage data s = s
  /\ settled 1 (run [Receive data; Elapse 10000] s)
     = [(40000%N, Rejected (ErrorObject "Request timeout"))].
Proof.
  intros data s.
  assert (0 < 10000 < request_timeout)%N as Hgap by by vm_compute.
  split; [exact Hgap|].
  exact (colliding_ids_lose_the_response [] "k3x9" (tool_request "bt")
           (tool_request "frame info") 10000 data
           (ExecuteLldbCommandResponse true (Some "frame #0") None "k3x9")
           Hgap eq_refl eq_refl).
Defined.

(** The command [bt], with a session that prints one frame. *)
Lemma tool_call_round_trip_witness :
  let session :=
    {| session_type := "lldb";
       session_answer := fun _ _ =>
         inr (JObject [("result", JString "frame #0: main")]) |} in
  let s1 := sendRequest Ready "k3x9" (tool_request "bt") initial in
  exists request reply,
    outbox s1 = [request]
    /\ sent (on_message (fun _ => JNull) (Some session) 7 request).1
       = [(7, reply)]
    /\ settled 0 (onmessage reply s1)
       = [(0%N,
           Resolved
             (ExecuteLldbCommandResponse true (Some "frame #0: main") None
                "k3x9"))]
    /\ tool_text
         (tool_result
            (Resolved
               (ExecuteLldbCommandResponse true (Some "frame #0: main") None
                  "k3x9")))
       = "frame #0: main".
Proof.
  intros session s1.
  destruct (tool_call_round_trip (fun _ => JNull) [] "k3x9" "bt"
              (Some session) 7)
    as (request & reply & Hout & Hsent & _ & _ & Htext).
  exists request, reply. split; [exact Hout|]. split; [exact Hsent|].
  destruct (Htext session (JObject [("result", JString "frame #0: main")])
              "frame #0: main" eq_refl eq_refl eq_refl) as [Hsettled Htool].
  split; [exact Hsettled|]. by rewrite Htool.
Defined.

(** A session whose evaluation returns a number. *)
Lemma unreadable_result_times_out_witness :
  let session :=
    {| session_type := "lldb";
       session_answer := fun _ _ =>
         inr (JObject [("result", JNumber (of_Z 42))]) |} in
  let s1 := sendRequest Ready "k3x9" (tool_request "p 6*7") initial in
  exists request reply,
    outbox s1 = request :: outbox initial
    /\ sent (on_message (fun _ => JNull) (Some session) 7 request).1
       = [(7, reply)]
    /\ frame_prop "success" reply = JBool true
    /\ onmessage reply s1 = s1
    /\ settled 0 (run [Receive reply; Elapse request_timeout] s1)
       = [(30000%N, Rejected (ErrorObject "Request timeout"))].
Proof.
  intros session s1.
  apply (unreadable_result_times_out (fun _ => JNull) [] "k3x9" "p 6*7"
           session 7 (JObject [("result", JNumber (of_Z 42))])
           (JNumber (of_Z 42)));
    first [reflexivity | discriminate | intros text; discriminate].
Defined.
